(** * CSV resource parser and uploader: a shallow embedding

    The development follows [src/csv_parser.py] (class [CSVParser]) and
    [src/resource_uploader.py] (class [ResourceUploader]).

    - Python strings are [string]s; the separators and prefixes the code
      looks for ([+], [-], [.csv]) are ASCII, so working on the UTF-8 bytes
      agrees with working on code points. [str.lower], which follows the
      Unicode tables, is a parameter of the environment that is fixed on
      ASCII strings only.
    - The file system [upload] writes to is a map from paths to what
      they name; other kinds of file than directories and regular files,
      permissions and a full disk are not represented, and neither are
      failures of the transport.
    - A [dict] is a [gmap], a [set] is a [gset], a [list] is a [list].
    - A method of a class is a computation in a state-and-exception monad
      over the object's attributes: a raised exception keeps every
      mutation made before it, as in Python.
    - Code of the repository that is not under [src/] ([utils.parsing],
      [utils.str], [utils.http], [models], [cfg]) is a field of a class of
      collaborators, over which the methods and the theorems are
      parametric; a concrete stand-in, marked as modelled from the
      specification, is used only to evaluate examples.
    - [print] calls (verbose output) are not modelled. *)

From Stdlib Require Import ZArith Lia Ascii.
From stdpp Require Import base option list gmap sets strings pretty.

Local Open Scope Z_scope.

(** ** Python strings *)

Module PyStr.

(** The double-quote and newline characters that occur in the f-strings. *)
Definition dq : string := String "034"%char EmptyString.
Definition nl : string := String "010"%char EmptyString.

(** [s.split(sep)] for a separator of one character: never empty, one
    more part than there are separators. *)
Fixpoint split (sep : ascii) (s : string) : list string :=
  match s with
  | EmptyString => [EmptyString]
  | String c s' =>
      if Ascii.eqb c sep then EmptyString :: split sep s'
      else match split sep s' with
           | [] => [String c EmptyString]
           | t :: ts => String c t :: ts
           end
  end.

(** [sep.join(parts)] *)
Fixpoint join (sep : string) (parts : list string) : string :=
  match parts with
  | [] => EmptyString
  | [t] => t
  | t :: ts => t +:+ sep +:+ join sep ts
  end.

(** [c in s] for a character *)
Fixpoint contains (c : ascii) (s : string) : bool :=
  match s with
  | EmptyString => false
  | String d s' => Ascii.eqb d c || contains c s'
  end.

(** [s.startswith(p)] *)
Definition startswith (s p : string) : bool := String.prefix p s.

(** [s.endswith(suffix)] *)
Fixpoint endswith (s suffix : string) : bool :=
  if String.eqb s suffix then true
  else match s with
       | EmptyString => false
       | String _ s' => endswith s' suffix
       end.

(** Whether every character of [s] is an ASCII character
    ([s.isascii()]). *)
Fixpoint is_ascii (s : string) : bool :=
  match s with
  | EmptyString => true
  | String c s' => (nat_of_ascii c <? 128)%nat && is_ascii s'
  end.

(** What [s.lower()] is for a string of ASCII characters: the letters
    [A] to [Z] are lowered and every other character is kept. What
    [str.lower] does to other strings follows the Unicode tables and is
    left to the environment (see [str_lower] below). *)
Definition lower_char (c : ascii) : ascii :=
  let n := nat_of_ascii c in
  if (65 <=? n)%nat && (n <=? 90)%nat then ascii_of_nat (n + 32) else c.

Fixpoint ascii_lower (s : string) : string :=
  match s with
  | EmptyString => EmptyString
  | String c s' => String (lower_char c) (ascii_lower s')
  end.

(** ASCII white space, as [str.isspace] classifies it. *)
Definition is_space (c : ascii) : bool :=
  let n := nat_of_ascii c in
  ((9 <=? n)%nat && (n <=? 13)%nat) || ((28 <=? n)%nat && (n <=? 32)%nat).

Fixpoint lstrip (s : string) : string :=
  match s with
  | EmptyString => EmptyString
  | String c s' => if is_space c then lstrip s' else s
  end.

Fixpoint rstrip (s : string) : string :=
  match s with
  | EmptyString => EmptyString
  | String c s' =>
      match rstrip s' with
      | EmptyString => if is_space c then EmptyString else String c EmptyString
      | r => String c r
      end
  end.

(** [s.strip()] *)
Definition strip (s : string) : string := rstrip (lstrip s).

End PyStr.

(** ** Python values, exceptions and the method monad *)

(** The values a CSV cell holds in a [csv.DictReader] row: a string, or
    [None] (the reader's [restval]) for a data line shorter than the
    header. *)
Inductive pyval : Type :=
  | PyNone
  | PyStr (s : string).

Global Instance pyval_eq_dec : EqDecision pyval.
Proof. solve_decision. Defined.

(** [str(v)], as an f-string formats the value. *)
Definition format_pyval (v : pyval) : string :=
  match v with
  | PyNone => "None"
  | PyStr s => s
  end.

Inductive exn_class : Type :=
  | Exception
  | FileNotFoundError
  | AttributeError
  | KeyError
  | TypeError
  | FileExistsError
  | NotADirectoryError
  | IsADirectoryError
  | ResourceUploadError
  | OtherError (name : string).

Inductive pyexn : Type :=
  | PyExn (cls : exn_class) (msg : string).

Inductive result (A : Type) : Type :=
  | Ok (a : A)
  | Raise (e : pyexn).
Global Arguments Ok {A} a.
Global Arguments Raise {A} e.

Definition is_ok {A} (r : result A) : bool :=
  match r with Ok _ => true | Raise _ => false end.

(** A method over an object of attributes [S]. *)
Definition M (S A : Type) : Type := S → result A * S.

Definition ret {S A} (a : A) : M S A := λ st, (Ok a, st).
Definition raise {S A} (e : pyexn) : M S A := λ st, (Raise e, st).
Definition bind {S A B} (c : M S A) (k : A → M S B) : M S B :=
  λ st, match c st with
        | (Ok a, st') => k a st'
        | (Raise e, st') => (Raise e, st')
        end.
Definition get {S} : M S S := λ st, (Ok st, st).
Definition modify {S} (f : S → S) : M S unit := λ st, (Ok tt, f st).
(** A call of a function that touches no attribute. *)
Definition lift {S A} (r : result A) : M S A := λ st, (r, st).

Declare Scope py_scope.
Delimit Scope py_scope with py.
Notation "x <- c ;; k" := (bind c (λ x, k))
  (at level 100, c at next level, right associativity) : py_scope.
Notation "c ;;; k" := (bind c (λ _, k))
  (at level 100, right associativity) : py_scope.
Local Open Scope py_scope.

(** [for x in xs: body x] *)
Fixpoint for_each {S A} (xs : list A) (body : A → M S unit) : M S unit :=
  match xs with
  | [] => ret tt
  | x :: xs' => body x ;;; for_each xs' body
  end.

(** [for x in xs: acc = body acc x], for a loop that updates a local. *)
Fixpoint for_fold {S A B} (xs : list A) (acc : B) (body : B → A → M S B)
  : M S B :=
  match xs with
  | [] => ret acc
  | x :: xs' => acc' <- body acc x ;; for_fold xs' acc' body
  end.

(** [asyncio.gather] over the tasks, for coroutines that never suspend. No method
    of [CSVParser] awaits anything but another of its own coroutines
    ([_parse_csv] awaits [_parse_row], which awaits nothing), so the event
    loop runs each task from start to end, in the order the tasks were
    created. Every task runs, also after one has raised; the call then
    raises the first exception, or returns the list of results. *)
Fixpoint gather {S A} (tasks : list (M S A)) : M S (list A) :=
  match tasks with
  | [] => ret []
  | t :: ts =>
      λ st,
        let '(r, st1) := t st in
        let '(rs, st2) := gather ts st1 in
        (match r, rs with
         | Raise e, _ => Raise e
         | Ok _, Raise e => Raise e
         | Ok a, Ok l => Ok (a :: l)
         end, st2)
  end.

(** [sum(xs)] *)
Definition sum (xs : list Z) : Z := foldr Z.add 0 xs.

(** ** The data model *)

(** A row of [csv.DictReader]: column name to cell. (The entry the reader
    files under the key [None] for a line longer than the header is left
    out: no lookup of this code can reach it.) *)
Abbreviation Row := (gmap string pyval).

(** [row[key]] *)
Definition getitem {S} (row : Row) (key : string) : M S pyval :=
  match row !! key with
  | Some v => ret v
  | None => raise (PyExn KeyError key)
  end.

(** The enumerations of [enums.py], by name, and a member of one. *)
Inductive Enum : Type :=
  | State | Cost | Interest | InstructionType | BoardingType
  | LocationLimit | Gender.

Record EnumMember : Type := mkEnumMember {
  member_enum : Enum;
  member_name : string;
}.

(** [ResourceDto]. The first nine attributes are the ones [_parse_row]
    passes to the constructor; an attribute of type [option] that is [None]
    still has the default [models.py] declares for it. [state] is
    [None] for Python's [None]. *)
Record ResourceDto : Type := mkResourceDto {
  id : Z;
  businessName : pyval;
  streetAddress : pyval;
  state : option EnumMember;
  city : pyval;
  zipCode : pyval;
  phone : pyval;
  webSite : pyval;
  description : pyval;
  category : option (list string);
  subCategory : option (list string);
  startGrade : option string;
  endGrade : option string;
  careerInterest : option (list EnumMember);
  cost : option EnumMember;
  instruction : option (list EnumMember);
  boarding : option (list EnumMember);
  gender : option EnumMember;
  locationLimit : option (list EnumMember);
}.

Definition set_id (v : Z) (r : ResourceDto) : ResourceDto :=
  mkResourceDto v (businessName r) (streetAddress r) (state r) (city r) (zipCode r) (phone r) (webSite r) (description r) (category r) (subCategory r) (startGrade r) (endGrade r) (careerInterest r) (cost r) (instruction r) (boarding r) (gender r) (locationLimit r).
Definition set_businessName (v : pyval) (r : ResourceDto) : ResourceDto :=
  mkResourceDto (id r) v (streetAddress r) (state r) (city r) (zipCode r) (phone r) (webSite r) (description r) (category r) (subCategory r) (startGrade r) (endGrade r) (careerInterest r) (cost r) (instruction r) (boarding r) (gender r) (locationLimit r).
Definition set_streetAddress (v : pyval) (r : ResourceDto) : ResourceDto :=
  mkResourceDto (id r) (businessName r) v (state r) (city r) (zipCode r) (phone r) (webSite r) (description r) (category r) (subCategory r) (startGrade r) (endGrade r) (careerInterest r) (cost r) (instruction r) (boarding r) (gender r) (locationLimit r).
Definition set_state (v : option EnumMember) (r : ResourceDto) : ResourceDto :=
  mkResourceDto (id r) (businessName r) (streetAddress r) v (city r) (zipCode r) (phone r) (webSite r) (description r) (category r) (subCategory r) (startGrade r) (endGrade r) (careerInterest r) (cost r) (instruction r) (boarding r) (gender r) (locationLimit r).
Definition set_city (v : pyval) (r : ResourceDto) : ResourceDto :=
  mkResourceDto (id r) (businessName r) (streetAddress r) (state r) v (zipCode r) (phone r) (webSite r) (description r) (category r) (subCategory r) (startGrade r) (endGrade r) (careerInterest r) (cost r) (instruction r) (boarding r) (gender r) (locationLimit r).
Definition set_zipCode (v : pyval) (r : ResourceDto) : ResourceDto :=
  mkResourceDto (id r) (businessName r) (streetAddress r) (state r) (city r) v (phone r) (webSite r) (description r) (category r) (subCategory r) (startGrade r) (endGrade r) (careerInterest r) (cost r) (instruction r) (boarding r) (gender r) (locationLimit r).
Definition set_phone (v : pyval) (r : ResourceDto) : ResourceDto :=
  mkResourceDto (id r) (businessName r) (streetAddress r) (state r) (city r) (zipCode r) v (webSite r) (description r) (category r) (subCategory r) (startGrade r) (endGrade r) (careerInterest r) (cost r) (instruction r) (boarding r) (gender r) (locationLimit r).
Definition set_webSite (v : pyval) (r : ResourceDto) : ResourceDto :=
  mkResourceDto (id r) (businessName r) (streetAddress r) (state r) (city r) (zipCode r) (phone r) v (description r) (category r) (subCategory r) (startGrade r) (endGrade r) (careerInterest r) (cost r) (instruction r) (boarding r) (gender r) (locationLimit r).
Definition set_description (v : pyval) (r : ResourceDto) : ResourceDto :=
  mkResourceDto (id r) (businessName r) (streetAddress r) (state r) (city r) (zipCode r) (phone r) (webSite r) v (category r) (subCategory r) (startGrade r) (endGrade r) (careerInterest r) (cost r) (instruction r) (boarding r) (gender r) (locationLimit r).
Definition set_category (v : list string) (r : ResourceDto) : ResourceDto :=
  mkResourceDto (id r) (businessName r) (streetAddress r) (state r) (city r) (zipCode r) (phone r) (webSite r) (description r) (Some v) (subCategory r) (startGrade r) (endGrade r) (careerInterest r) (cost r) (instruction r) (boarding r) (gender r) (locationLimit r).
Definition set_subCategory (v : list string) (r : ResourceDto) : ResourceDto :=
  mkResourceDto (id r) (businessName r) (streetAddress r) (state r) (city r) (zipCode r) (phone r) (webSite r) (description r) (category r) (Some v) (startGrade r) (endGrade r) (careerInterest r) (cost r) (instruction r) (boarding r) (gender r) (locationLimit r).
Definition set_grades (v : string * string) (r : ResourceDto) : ResourceDto :=
  mkResourceDto (id r) (businessName r) (streetAddress r) (state r) (city r) (zipCode r) (phone r) (webSite r) (description r) (category r) (subCategory r) (Some v.1) (Some v.2) (careerInterest r) (cost r) (instruction r) (boarding r) (gender r) (locationLimit r).
Definition set_careerInterest (v : list EnumMember) (r : ResourceDto) : ResourceDto :=
  mkResourceDto (id r) (businessName r) (streetAddress r) (state r) (city r) (zipCode r) (phone r) (webSite r) (description r) (category r) (subCategory r) (startGrade r) (endGrade r) (Some v) (cost r) (instruction r) (boarding r) (gender r) (locationLimit r).
Definition set_cost (v : EnumMember) (r : ResourceDto) : ResourceDto :=
  mkResourceDto (id r) (businessName r) (streetAddress r) (state r) (city r) (zipCode r) (phone r) (webSite r) (description r) (category r) (subCategory r) (startGrade r) (endGrade r) (careerInterest r) (Some v) (instruction r) (boarding r) (gender r) (locationLimit r).
Definition set_instruction (v : list EnumMember) (r : ResourceDto) : ResourceDto :=
  mkResourceDto (id r) (businessName r) (streetAddress r) (state r) (city r) (zipCode r) (phone r) (webSite r) (description r) (category r) (subCategory r) (startGrade r) (endGrade r) (careerInterest r) (cost r) (Some v) (boarding r) (gender r) (locationLimit r).
Definition set_boarding (v : list EnumMember) (r : ResourceDto) : ResourceDto :=
  mkResourceDto (id r) (businessName r) (streetAddress r) (state r) (city r) (zipCode r) (phone r) (webSite r) (description r) (category r) (subCategory r) (startGrade r) (endGrade r) (careerInterest r) (cost r) (instruction r) (Some v) (gender r) (locationLimit r).
Definition set_gender (v : EnumMember) (r : ResourceDto) : ResourceDto :=
  mkResourceDto (id r) (businessName r) (streetAddress r) (state r) (city r) (zipCode r) (phone r) (webSite r) (description r) (category r) (subCategory r) (startGrade r) (endGrade r) (careerInterest r) (cost r) (instruction r) (boarding r) (Some v) (locationLimit r).
Definition set_locationLimit (v : list EnumMember) (r : ResourceDto) : ResourceDto :=
  mkResourceDto (id r) (businessName r) (streetAddress r) (state r) (city r) (zipCode r) (phone r) (webSite r) (description r) (category r) (subCategory r) (startGrade r) (endGrade r) (careerInterest r) (cost r) (instruction r) (boarding r) (gender r) (Some v).

(** [setattr(resource, field, v)] for the six simple fields of
    [_parse_row]'s loop. *)
Definition setattr_simple (field : string) (v : pyval) (r : ResourceDto)
  : ResourceDto :=
  if decide (field = "streetAddress") then set_streetAddress v r
  else if decide (field = "city") then set_city v r
  else if decide (field = "zipCode") then set_zipCode v r
  else if decide (field = "phone") then set_phone v r
  else if decide (field = "webSite") then set_webSite v r
  else if decide (field = "description") then set_description v r
  else r.

(** The attributes of a [CSVParser]. *)
Record CSVParser : Type := mkCSVParser {
  files : gset string;
  resources : list ResourceDto;
  verbose_flag : bool;
  post_flag : bool;
  rollback_flag : bool;
  categories : gset string;
  subcategories : gset string;
  err_log : list string;
}.

(** [CSVParser.__init__] *)
Definition CSVParser_init : CSVParser :=
  mkCSVParser ∅ [] false false false ∅ ∅ [].

Definition files_add (fp : string) (s : CSVParser) : CSVParser :=
  mkCSVParser ({[fp]} ∪ files s) (resources s) (verbose_flag s) (post_flag s) (rollback_flag s) (categories s) (subcategories s) (err_log s).
Definition resources_append (r : ResourceDto) (s : CSVParser) : CSVParser :=
  mkCSVParser (files s) (resources s ++ [r]) (verbose_flag s) (post_flag s) (rollback_flag s) (categories s) (subcategories s) (err_log s).
Definition err_log_append (m : string) (s : CSVParser) : CSVParser :=
  mkCSVParser (files s) (resources s) (verbose_flag s) (post_flag s) (rollback_flag s) (categories s) (subcategories s) (err_log s ++ [m]).
Definition set_verbose_flag (b : bool) (s : CSVParser) : CSVParser :=
  mkCSVParser (files s) (resources s) b (post_flag s) (rollback_flag s) (categories s) (subcategories s) (err_log s).
Definition set_post_flag (b : bool) (s : CSVParser) : CSVParser :=
  mkCSVParser (files s) (resources s) (verbose_flag s) b (rollback_flag s) (categories s) (subcategories s) (err_log s).
Definition set_rollback_flag (b : bool) (s : CSVParser) : CSVParser :=
  mkCSVParser (files s) (resources s) (verbose_flag s) (post_flag s) b (categories s) (subcategories s) (err_log s).
Definition set_vocabulary (cs scs : gset string) (s : CSVParser) : CSVParser :=
  mkCSVParser (files s) (resources s) (verbose_flag s) (post_flag s) (rollback_flag s) cs scs (err_log s).

(** What a path names on the file system when the code asks:
    a regular file ([os.path.isfile]), a directory ([os.path.isdir]) with
    the entries [os.listdir] returns and what each of them names, anything
    else that exists (a socket, a device), or nothing ([os.path.exists] is
    false: no such path, or a name listed in a directory whose link is
    broken). *)
#[warnings="-register-all"]
Inductive node : Type :=
  | File
  | Dir (entries : list (string * node))
  | Other
  | Absent.

Definition isfile (n : node) : bool :=
  match n with File => true | _ => false end.
Definition isdir (n : node) : bool :=
  match n with Dir _ => true | _ => false end.
Definition exists_ (n : node) : bool :=
  match n with Absent => false | _ => true end.

(** A CSV file as [csv.DictReader] presents it: [fieldnames] ([None] for
    an empty file) and the rows. *)
Record CsvFile : Type := mkCsvFile {
  fieldnames : option (list string);
  rows : list Row;
}.

(** ** [CSVParser] *)

(** *** Collaborators that are not under [src/] *)

(** The package [utils] of the repository. *)
Class Utils : Type := {
  (** [utils.parsing.validate_field(field, row)], by the truth value of
      what it returns (the code only tests it), or the exception it
      raises. *)
  validate_field : string → Row → result bool;
  (** [utils.parsing.validate_enum_field(enum, field, row)]: [None] for a
      result that tests false, the member otherwise. *)
  validate_enum_field : Enum → string → Row → result (option EnumMember);
  (** [utils.parsing.validate_list_enum_field(enum, field, row)] *)
  validate_list_enum_field :
    Enum → string → Row → result (option (list EnumMember));
  (** [utils.parsing.parse_grade(raw)]: [None] for a result that tests
      false, the pair it is unpacked into otherwise. *)
  parse_grade : pyval → result (option (string * string));
  (** [utils.str.bulleted_list] *)
  bulleted_list : list string → string;
  (** [utils.http.all_categories()] *)
  all_categories : result (list string * list string);
}.

(** The column names a header may use. *)
Class Schema : Type := {
  (** [ResourceDto.__annotations__.keys()], from [models.py] *)
  attrs : gset string;
  (** [cfg.allowed_fields] *)
  allowed_fields : gset string;
}.

(** *** The environment *)

Class System : Type := {
  (** [s.lower()]. Python lowers by the Unicode tables (the Kelvin sign
      lowers to [k], for one); of those only the ASCII part is spelled
      out here, so the function is a parameter that agrees with
      [PyStr.ascii_lower] on strings of ASCII characters. *)
  str_lower : string → string;
  str_lower_ascii :
    ∀ s, PyStr.is_ascii s = true → str_lower s = PyStr.ascii_lower s;
  (** [open(fp)] followed by [csv.DictReader]: the file read, or the
      exception of a failed [open]. *)
  read_csv : string → result CsvFile;
  (** What a command-line path names. *)
  lookup_path : string → node;
  (** The order in which Python iterates over a set of strings: each
      element once. *)
  set_order : gset string → list string;
  set_order_perm : ∀ X, set_order X ≡ₚ elements X;
  (** [os.getpid()] *)
  getpid : Z;
}.

Section Parser.

Context {U : Utils} {Sch : Schema} {Sys : System}.

(** *** Methods *)

(** [_validate_category_field(cats, subcategory)] *)
Definition _validate_category_field (cats : pyval) (subcategory : bool)
  : M CSVParser (list string) :=
  match cats with
  | PyNone =>
      raise (PyExn AttributeError
               "'NoneType' object has no attribute 'split'")
  | PyStr s =>
      let cats := PyStr.split "+" s in
      for_each cats (λ cat,
        self <- get ;;
        if decide (cat ∉ (if subcategory then subcategories self
                          else categories self))
        then raise (PyExn Exception
                      (PyStr.dq +:+ cat +:+ PyStr.dq +:+ " is not a valid " +:+
                       (if subcategory then "sub" else EmptyString) +:+
                       "category"))
        else ret tt) ;;;
      ret cats
  end.

(** [_validate_required_fields(row)] *)
Definition _validate_required_fields (row : Row) : M CSVParser unit :=
  err <- for_fold ["businessName"; "category"; "subCategory"] false
           (λ err field,
              if bool_decide (row !! field = None)
              then modify (err_log_append
                             (PyStr.dq +:+ field +:+ PyStr.dq +:+
                              " is a required row")) ;;;
                   ret true
              else ret err) ;;
  if (err : bool) then
    self <- get ;;
    raise (PyExn Exception
             ("At least 1 required field was not found in one of the rows:"
              +:+ PyStr.nl +:+ bulleted_list (err_log self)))
  else ret tt.

(** [_validate_column_names(fp, fields)] *)
Definition _validate_column_names (fp : string) (fields : list string)
  : M CSVParser unit :=
  err <- for_fold fields false
           (λ err field,
              if bool_decide (field ∉ attrs) && bool_decide (field ∉ allowed_fields)
              then modify (err_log_append
                             (fp +:+ ": " +:+ PyStr.dq +:+ field +:+ PyStr.dq
                              +:+ " is not a valid field")) ;;;
                   ret true
              else ret err) ;;
  if (err : bool) then
    self <- get ;;
    raise (PyExn Exception
             ("Unable to parse " +:+ fp +:+ " due to invalid fields:"
              +:+ PyStr.nl +:+ bulleted_list (err_log self)))
  else ret tt.

(** [if res := validate_enum_field(enum, field, row): resource.x = res] *)
Definition apply_enum (enum : Enum) (field : string) (row : Row)
    (set : EnumMember → ResourceDto → ResourceDto) (resource : ResourceDto)
  : M CSVParser ResourceDto :=
  res <- lift (validate_enum_field enum field row) ;;
  match res with
  | Some v => ret (set v resource)
  | None => ret resource
  end.

(** [if res := validate_list_enum_field(enum, field, row): resource.x = res]
    (an empty list tests false). *)
Definition apply_list_enum (enum : Enum) (field : string) (row : Row)
    (set : list EnumMember → ResourceDto → ResourceDto)
    (resource : ResourceDto)
  : M CSVParser ResourceDto :=
  res <- lift (validate_list_enum_field enum field row) ;;
  match res with
  | Some (v :: vs) => ret (set (v :: vs) resource)
  | _ => ret resource
  end.

(** [_parse_row(row)] *)
Definition _parse_row (row : Row) : M CSVParser ResourceDto :=
  let resource :=
    mkResourceDto 0 PyNone PyNone None PyNone PyNone PyNone PyNone PyNone
      None None None None None None None None None None in
  (* Check that required fields exist *)
  _validate_required_fields row ;;;
  name <- getitem row "businessName" ;;
  let resource := set_id 0 (set_businessName name resource) in
  (* Validate and apply simple fields *)
  resource <- for_fold
      ["streetAddress"; "city"; "zipCode"; "phone"; "webSite"; "description"]
      resource
      (λ resource field,
         res <- lift (validate_field field row) ;;
         if (res : bool) then
           v <- getitem row field ;; ret (setattr_simple field v resource)
         else ret resource) ;;
  (* Validate and apply category/subcategory *)
  c <- getitem row "category" ;;
  cats <- _validate_category_field c false ;;
  let resource := set_category cats resource in
  sc <- getitem row "subCategory" ;;
  subcats <- _validate_category_field sc true ;;
  let resource := set_subCategory subcats resource in
  (* Validate and apply start/end grade *)
  resource <-
    match row !! "GRADELEVEL" with
    | Some raw =>
        res <- lift (parse_grade raw) ;;
        match res with
        | Some g => ret (set_grades g resource)
        | None => ret resource
        end
    | None => ret resource
    end ;;
  resource <- apply_enum State "state" row (λ v, set_state (Some v)) resource ;;
  resource <- apply_list_enum Interest "careerInterest" row
                set_careerInterest resource ;;
  resource <- apply_enum Cost "cost" row set_cost resource ;;
  resource <- apply_list_enum InstructionType "instruction" row
                set_instruction resource ;;
  resource <- apply_list_enum BoardingType "boarding" row
                set_boarding resource ;;
  resource <- apply_enum Gender "gender" row set_gender resource ;;
  resource <- apply_list_enum LocationLimit "locationLimit" row
                set_locationLimit resource ;;
  ret resource.

(** The body of the loop of [_parse_csv], for one row. *)
Definition parse_row_step (n_rows : Z) (row : Row) : M CSVParser Z :=
  res <- _parse_row row ;;
  modify (resources_append res) ;;;
  ret (n_rows + 1).

(** The loop of [_parse_csv] over the reader's rows. *)
Definition parse_rows (rows : list Row) : M CSVParser Z :=
  for_fold rows 0 parse_row_step.

(** [_parse_csv(fp)] *)
Definition _parse_csv (fp : string) : M CSVParser Z :=
  file <- lift (read_csv fp) ;;
  (* Validate the field names *)
  fields <- match fieldnames file with
            | Some fields => ret fields
            | None => raise (PyExn TypeError
                               "'NoneType' object is not iterable")
            end ;;
  _validate_column_names fp fields ;;;
  (* Iterate through each row *)
  parse_rows (rows file).

(** [_parse_all()] *)
Definition _parse_all : M CSVParser Z :=
  self <- get ;;
  let tasks := _parse_csv <$> set_order (files self) in
  counts <- gather tasks ;;
  ret (sum counts).

(** [_set_flag(flag)] *)
Definition _set_flag (flag : string) : M CSVParser unit :=
  let f := str_lower flag in
  if decide (f = "-v" ∨ f = "--verbose") then modify (set_verbose_flag true)
  else if decide (f = "--upload") then modify (set_post_flag true)
  else if decide (f = "-r" ∨ f = "--rollback")
       then modify (set_rollback_flag true)
  else ret tt.

(** [_process_fp(fp)], where [n] is what [fp] names. *)
Fixpoint _process_fp (fp : string) (n : node) {struct n} : M CSVParser Z :=
  (* Base case: fp is a file *)
  if PyStr.endswith fp ".csv" && isfile n then
    modify (files_add fp) ;;; ret 0
  else
    match n with
    | Dir entries =>
        (* Recursive case: fp is a directory *)
        (fix listing (es : list (string * node)) (nfiles : Z)
           : M CSVParser Z :=
           match es with
           | [] => ret nfiles
           | (p, child) :: es' =>
               k <- _process_fp (fp +:+ "/" +:+ p) child ;;
               listing es' (nfiles + k)
           end) entries 0
    | _ =>
        (* File exists, but isn't a CSV *)
        if exists_ n then ret 0
        else
          modify (err_log_append
                    ("Path " +:+ PyStr.dq +:+ fp +:+ PyStr.dq +:+
                     " does not exist")) ;;;
          ret 1
    end.

Definition usage : string :=
  "Program expects at least 1 argument." +:+ PyStr.nl +:+ PyStr.nl +:+
  "Usage: python <path to main.py> <directories containing CSV files | CSV names delimited by spaces>".

(** The loop of [_process_args] over the arguments after the program
    name; returns [n_failed]. *)
Definition scan_args (args : list string) : M CSVParser Z :=
  for_fold args 0
    (λ n_failed s,
       (* Check flags *)
       if PyStr.startswith s "-" then _set_flag s ;;; ret n_failed
       else
         (* Populate self.files with valid files *)
         k <- _process_fp s (lookup_path s) ;;
         ret (n_failed + k)).

(** [_process_args()], for [sys.argv = argv]. *)
Definition _process_args (argv : list string) : M CSVParser unit :=
  (* Program needs arguments *)
  if decide (Z.of_nat (length argv) < 2) then raise (PyExn Exception usage)
  else
    n_failed <- scan_args (drop 1 argv) ;;
    (* Check if any files do not exist *)
    if decide (n_failed > 0) then
      self <- get ;;
      raise (PyExn FileNotFoundError
               ("Some paths were not found:" +:+ PyStr.nl +:+
                bulleted_list (err_log self)))
    else ret tt.

(** [parse()], for [sys.argv = argv]; returns the number of rows it
    reports. *)
Definition parse (argv : list string) : M CSVParser Z :=
  (* Initialize files and flags *)
  _process_args argv ;;;
  (* Populate category lists *)
  vocabulary <- lift all_categories ;;
  modify (set_vocabulary (list_to_set vocabulary.1)
                         (list_to_set vocabulary.2)) ;;;
  (* Parse the files *)
  n_rows <- _parse_all ;;
  ret n_rows.

End Parser.

(** ** [ResourceUploader] *)

(** A decoded JSON value ([resp.json()]); an object lists each key once. *)
#[warnings="-register-all"]
Inductive json : Type :=
  | JNull
  | JBool (b : bool)
  | JNum (z : Z)
  | JStr (s : string)
  | JArr (items : list json)
  | JObj (members : list (string * json)).

Fixpoint assoc {A} (key : string) (kvs : list (string * A)) : option A :=
  match kvs with
  | [] => None
  | (k, v) :: kvs' => if decide (k = key) then Some v else assoc key kvs'
  end.

(** [v[key]] for a string key. *)
Definition subscript (v : json) (key : string) : result json :=
  match v with
  | JObj members =>
      match assoc key members with
      | Some x => Ok x
      | None => Raise (PyExn KeyError key)
      end
  | JArr _ => Raise (PyExn TypeError "list indices must be integers or slices, not str")
  | JStr _ => Raise (PyExn TypeError "string indices must be integers, not 'str'")
  | JNull => Raise (PyExn TypeError "'NoneType' object is not subscriptable")
  | JBool _ => Raise (PyExn TypeError "'bool' object is not subscriptable")
  | JNum _ => Raise (PyExn TypeError "'int' object is not subscriptable")
  end.

(** What [upload] reads of a response. *)
Record Response : Type := mkResponse {
  status : Z;
  data : json;
}.

(** What a path names for [upload]: a directory, or a regular file with
    its contents. *)
Inductive fs_entry : Type :=
  | FsDir
  | FsFile (text : string).

Global Instance fs_entry_eq_dec : EqDecision fs_entry.
Proof. solve_decision. Defined.

(** The part of the file system [upload] touches, by path relative to
    the working directory, which is a directory that exists. Other kinds
    of file, permissions and a full disk are not represented: a path
    names a directory, a regular file, or nothing. *)
Abbreviation FileSystem := (gmap string fs_entry).

(** The directory part of a relative path: what comes before its last
    [/], and the empty string (the working directory) when it has none. *)
Fixpoint dirname (p : string) : string :=
  match p with
  | EmptyString => EmptyString
  | String c p' =>
      if PyStr.contains "/" p' then String c (dirname p') else EmptyString
  end.

(** The text of an [OSError] for the path [p]. *)
Definition os_error (cls : exn_class) (errno : Z) (what p : string) : pyexn :=
  PyExn cls ("[Errno " +:+ pretty errno +:+ "] " +:+ what +:+ ": '" +:+ p
             +:+ "'").

(** The error of the operating system when the directory part of [p]
    does not name a directory, if it does not. *)
Definition parent_error (p : string) (fs : FileSystem) : option pyexn :=
  match dirname p with
  | EmptyString => None
  | d =>
      match fs !! d with
      | Some FsDir => None
      | Some (FsFile _) =>
          Some (os_error NotADirectoryError 20 "Not a directory" p)
      | None =>
          Some (os_error FileNotFoundError 2 "No such file or directory" p)
      end
  end.

(** [os.path.exists(p)] *)
Definition path_exists (p : string) (fs : FileSystem) : bool :=
  bool_decide (is_Some (fs !! p)).

(** [os.mkdir(p)] *)
Definition mkdir (p : string) (fs : FileSystem) : result FileSystem :=
  match parent_error p fs with
  | Some e => Raise e
  | None =>
      if path_exists p fs then
        Raise (os_error FileExistsError 17 "File exists" p)
      else Ok (<[p := FsDir]> fs)
  end.

(** [with open(p, "w") as file: file.write(text)] *)
Definition write_file (p text : string) (fs : FileSystem)
  : result FileSystem :=
  match parent_error p fs with
  | Some e => Raise e
  | None =>
      match fs !! p with
      | Some FsDir => Raise (os_error IsADirectoryError 21 "Is a directory" p)
      | _ => Ok (<[p := FsFile text]> fs)
      end
  end.

(** The remote endpoint behind [cfg.api_url], with whatever state it
    keeps: [post resource srv] is its answer to one [/resource/save]
    request. Failures of the transport are not modelled: every request is
    answered with a status and a JSON body. *)
Class Endpoint : Type := {
  Server : Type;
  post : ResourceDto → Server → Response * Server;
  (** [str(v)] of a decoded JSON value. *)
  py_str : json → string;
}.

Module Uploader.

Section Methods.

Context {U : Utils} {Sys : System} {E : Endpoint}.

(** A [ResourceUploader] ([err_log]) together with the world its
    [upload] acts on. *)
Record World : Type := mkWorld {
  err_log : list string;
  server : Server;
  fs : FileSystem;
}.

(** [ResourceUploader.__init__], in a given world. *)
Definition init (srv : Server) (fs0 : FileSystem) : World :=
  mkWorld [] srv fs0.

Definition err_log_append (m : string) (w : World) : World :=
  mkWorld (err_log w ++ [m]) (server w) (fs w).

(** A call of the operating system that changes the file system, or
    raises and leaves it as it was. *)
Definition on_fs (f : FileSystem → result FileSystem) : M World unit :=
  λ w, match f (fs w) with
       | Ok fs' => (Ok tt, mkWorld (err_log w) (server w) fs')
       | Raise e => (Raise e, w)
       end.

(** [session.post(api_url + "/resource/save", json=asdict(resource))] and
    [await resp.json()] *)
Definition session_post (resource : ResourceDto) : M World Response :=
  λ w, let '(resp, srv) := post resource (server w) in
       (Ok resp, mkWorld (err_log w) srv (fs w)).

(** The locals [n_uploaded], [err] and [uploaded] of [upload]. *)
Record Locals : Type := mkLocals {
  n_uploaded : Z;
  err : Z;
  uploaded : list json;
}.

(** The body of the loop of [upload] for one resource. *)
Definition upload_one (l : Locals) (resource : ResourceDto)
  : M World Locals :=
  resp <- session_post resource ;;
  let data := data resp in
  if decide (status resp = 200) then
    d <- lift (subscript data "data") ;;
    i <- lift (subscript d "id") ;;
    ret (mkLocals (n_uploaded l + 1) (err l) (uploaded l ++ [i]))
  else
    modify (err_log_append
              ("Resource " +:+ format_pyval (businessName resource) +:+
               " failed to upload: " +:+ py_str data)) ;;;
    ret (mkLocals (n_uploaded l) (err l + 1) (uploaded l)).

Definition outname : string :=
  "rollback_ids/" +:+ pretty getpid +:+ ".txt".

(** [upload(resources, verbose)] *)
Definition upload (resources : list ResourceDto) (verbose : bool)
  : M World Z :=
  (* Upload each parsed resource *)
  l <- for_fold resources (mkLocals 0 0 []) upload_one ;;
  (if decide (Z.of_nat (length (uploaded l)) > 0) then
     (* Create a directory to store the rollback IDs *)
     (w <- get ;;
      if negb (path_exists "rollback_ids" (fs w))
      then on_fs (mkdir "rollback_ids")
      else ret tt) ;;;
     (* Write the rollback IDs to a file *)
     on_fs (write_file outname (PyStr.join " " (py_str <$> uploaded l)))
   else ret tt) ;;;
  if decide (err l > 0) then
    w <- get ;;
    raise (PyExn ResourceUploadError
             ("Failed to upload " +:+ pretty (err l) +:+ " resources:" +:+
              PyStr.nl +:+ bulleted_list (err_log w)))
  else ret (n_uploaded l).

End Methods.

End Uploader.

(** ** Stand-ins for the code that is not under [src/]

    Used only to evaluate the methods on concrete inputs; every general
    theorem below holds for all collaborators. *)

Module Standin.

(** Modelled from the spec: the Enum Registry ([enums.py] is not under
    [src/]), as the canonical tokens of each enumeration. The examples
    below have no enumerated column, and use the empty registry. *)
Definition registry : Type := Enum → list string.

(** Modelled from the spec: membership in the registry, where tokens
    match case-insensitively and the canonical stored form is used in
    output. *)
Definition lookup_member (reg : registry) (enum : Enum) (token : string)
  : result EnumMember :=
  match List.find (λ c, String.eqb (PyStr.ascii_lower c) (PyStr.ascii_lower token))
          (reg enum) with
  | Some c => Ok (mkEnumMember enum c)
  | None => Raise (PyExn (OtherError "InvalidEnumValue") token)
  end.

(** Modelled from the spec: [utils.parsing.validate_field] is not under
    [src/]; it returns the row's raw value if the column is present and
    non-empty after trimming, and otherwise signals that it is absent. *)
Definition validate_field (field : string) (row : Row) : result bool :=
  match row !! field with
  | Some (PyStr s) => Ok (negb (String.eqb (PyStr.strip s) EmptyString))
  | _ => Ok false
  end.

(** Modelled from the spec: [utils.parsing.validate_enum_field] is not
    under [src/]; like the scalar validator, but it also checks membership
    in the enumeration and fails if the value is present and no member. *)
Definition validate_enum_field (reg : registry) (enum : Enum)
    (field : string) (row : Row) : result (option EnumMember) :=
  match row !! field with
  | Some (PyStr s) =>
      let token := PyStr.strip s in
      if String.eqb token EmptyString then Ok None
      else match lookup_member reg enum token with
           | Ok m => Ok (Some m)
           | Raise e => Raise e
           end
  | _ => Ok None
  end.

(** The members for a list of tokens, or the failure of the first token
    that is none. *)
Fixpoint lookup_members (reg : registry) (enum : Enum) (tokens : list string)
  : result (list EnumMember) :=
  match tokens with
  | [] => Ok []
  | t :: ts =>
      match lookup_member reg enum t with
      | Raise e => Raise e
      | Ok m =>
          match lookup_members reg enum ts with
          | Raise e => Raise e
          | Ok ms => Ok (m :: ms)
          end
      end
  end.

(** Modelled from the spec: [utils.parsing.validate_list_enum_field] is
    not under [src/]; it splits the raw value on [+], trims each token and
    validates each against the enumeration, in input order. *)
Definition validate_list_enum_field (reg : registry) (enum : Enum)
    (field : string) (row : Row) : result (option (list EnumMember)) :=
  match row !! field with
  | Some (PyStr s) =>
      if String.eqb (PyStr.strip s) EmptyString then Ok None
      else match lookup_members reg enum
                   (PyStr.strip <$> PyStr.split "+" s) with
           | Ok ms => Ok (Some ms)
           | Raise e => Raise e
           end
  | _ => Ok None
  end.

(** Modelled from the spec: [utils.parsing.parse_grade] is not under
    [src/]; it parses a single column encoding a grade span such as K-5,
    and fails if the value cannot be decomposed into two bounds. *)
Definition parse_grade (raw : pyval) : result (option (string * string)) :=
  match raw with
  | PyNone => Ok None
  | PyStr s =>
      let t := PyStr.strip s in
      if String.eqb t EmptyString then Ok None
      else match PyStr.split "-" t with
           | [lo; hi] => Ok (Some (lo, hi))
           | _ => Raise (PyExn (OtherError "InvalidGradeFormat") t)
           end
  end.

(** Modelled from the spec: [utils.str.bulleted_list] is not under
    [src/]; it formats the messages as a bulleted list, one per line. *)
Definition bulleted_list (items : list string) : string :=
  PyStr.join PyStr.nl ((λ m, "- " +:+ m) <$> items).

(** The vocabulary snapshot of the end-to-end example of the
    specification. *)
Definition example_vocabulary : list string * list string :=
  (["Tutoring"], ["Math"]).

#[export] Instance utils : Utils := {
  validate_field := Standin.validate_field;
  validate_enum_field := Standin.validate_enum_field (λ _, []);
  validate_list_enum_field := Standin.validate_list_enum_field (λ _, []);
  parse_grade := Standin.parse_grade;
  bulleted_list := Standin.bulleted_list;
  all_categories := Ok example_vocabulary;
}.

(** Modelled from the spec: [models.py] is not under [src/]; the
    attributes of the record are the ones the data model lists. The
    configured extra column is the one [_parse_row] reads. *)
#[export] Instance schema : Schema := {
  attrs := list_to_set
    ["id"; "businessName"; "category"; "subCategory"; "streetAddress";
     "city"; "zipCode"; "phone"; "webSite"; "description"; "state"; "cost";
     "gender"; "careerInterest"; "instruction"; "boarding"; "locationLimit";
     "startGrade"; "endGrade"];
  allowed_fields := {["GRADELEVEL"]};
}.

(** The three-row file of the end-to-end example. *)
Definition example_row (name cat subcat phone : string) : Row :=
  list_to_map [("businessName", PyStr name); ("category", PyStr cat);
               ("subCategory", PyStr subcat); ("phone", PyStr phone)].


(** A system with files given by [read], whose command-line paths name
    what [names] says, which iterates over a set in the order of
    [elements], and whose [str.lower] lowers the ASCII letters only (the
    examples use ASCII strings). *)
Definition system (read : string → result CsvFile) (names : string → node)
  : System := {|
  read_csv := read;
  lookup_path := names;
  str_lower := PyStr.ascii_lower;
  str_lower_ascii := λ s _, eq_refl;
  set_order := elements;
  set_order_perm := λ X, reflexivity (elements X);
  getpid := 4242;
|}.

Definition no_such_file (fp : string) : result CsvFile :=
  Raise (PyExn FileNotFoundError fp).

(** The session after [__init__] and the vocabulary fetch of [parse]. *)
Definition example_session : CSVParser :=
  set_vocabulary (list_to_set example_vocabulary.1)
                 (list_to_set example_vocabulary.2) CSVParser_init.



(** A system with two files, of two rows and of one row. *)
Definition two_files : System :=
  system (λ fp,
            if decide (fp = "a.csv") then
              Ok (mkCsvFile (Some ["businessName"; "category"; "subCategory"])
                    [example_row "Acme" "Tutoring" "Math" "555-1212";
                     example_row "Beta" "Tutoring" "Math" EmptyString])
            else if decide (fp = "b.csv") then
              Ok (mkCsvFile (Some ["businessName"; "category"; "subCategory"])
                    [example_row "Gamma" "Tutoring+Tutoring" "Math" EmptyString])
            else no_such_file fp)
         (λ _, File).

(** The session of the example with both files discovered. *)
Definition two_files_session : CSVParser :=
  files_add "a.csv" (files_add "b.csv" example_session).

(** The number of rows of each of the two files. *)
Definition two_files_counts (fp : string) : Z :=
  if decide (fp = "a.csv") then 2 else 1.

(** A system where [notes.txt] is a regular file and no other path
    exists. *)
Definition notes_system : System :=
  system no_such_file (λ p, if decide (p = "notes.txt") then File else Absent).

(** [repr(v)] of a decoded JSON value, without escapes in strings; used
    to print the examples only. *)
Fixpoint py_repr (v : json) : string :=
  match v with
  | JNull => "None"
  | JBool b => if b then "True" else "False"
  | JNum z => pretty z
  | JStr s => "'" +:+ s +:+ "'"
  | JArr items => "[" +:+ PyStr.join ", " (map py_repr items) +:+ "]"
  | JObj members =>
      "{" +:+ PyStr.join ", "
                (map (λ kv, "'" +:+ kv.1 +:+ "': " +:+ py_repr kv.2) members)
      +:+ "}"
  end.

(** An endpoint that numbers the records it creates from its state on,
    and refuses a record without a name with status 400. *)
#[export] Instance endpoint : Endpoint := {
  Server := Z;
  post r next :=
    if decide (businessName r = PyStr EmptyString) then
      (mkResponse 400 (JObj [("error", JStr "businessName is required")]),
       next)
    else
      (mkResponse 200 (JObj [("data", JObj [("id", JNum next)])]), next + 1);
  py_str v := match v with JStr s => s | _ => py_repr v end;
}.

(** A record with the given name and nothing else. *)
Definition named (name : string) : ResourceDto :=
  mkResourceDto 0 (PyStr name) PyNone None PyNone PyNone PyNone PyNone PyNone
    None None None None None None None None None None.

(** A file system with nothing in it. *)
Definition empty_fs : FileSystem := ∅.


(** A session whose category vocabulary has two entries. *)
Definition two_categories : CSVParser :=
  set_vocabulary {["Tutoring"; "Mentoring"]} ∅ CSVParser_init.

End Standin.

(** ** Statement-level definitions *)

(** The message [_validate_category_field] raises for a token. *)
Definition unknown_category_msg (subcategory : bool) (token : string)
  : string :=
  PyStr.dq +:+ token +:+ PyStr.dq +:+ " is not a valid " +:+
  (if subcategory then "sub" else EmptyString) +:+ "category".

(** The vocabulary [_validate_category_field] checks against. *)
Definition vocabulary (subcategory : bool) (self : CSVParser) : gset string :=
  if subcategory then subcategories self else categories self.

(** The loop of [_validate_category_field] over the parts. *)
Definition check_tokens (subcategory : bool) (parts : list string)
  : M CSVParser unit :=
  for_each parts (λ cat,
    self <- get ;;
    if decide (cat ∉ vocabulary subcategory self)
    then raise (PyExn Exception (unknown_category_msg subcategory cat))
    else ret tt).

(** The required columns, in the order [_validate_required_fields]
    scans them, and the ones a row lacks. *)
Definition required_fields : list string :=
  ["businessName"; "category"; "subCategory"].
Definition missing_fields (row : Row) : list string :=
  filter (λ field, row !! field = None) required_fields.

(** The entry [_validate_required_fields] logs for a missing column. *)
Definition required_msg (field : string) : string :=
  PyStr.dq +:+ field +:+ PyStr.dq +:+ " is a required row".

(** The exception of [_validate_required_fields], for the log it is
    built from. *)
Definition missing_required_field {U : Utils} (log : list string) : pyexn :=
  PyExn Exception
    ("At least 1 required field was not found in one of the rows:"
     +:+ PyStr.nl +:+ bulleted_list log).

(** The header fields [_validate_column_names] rejects, in header
    order. *)
Definition invalid_fields {Sch : Schema} (fields : list string) : list string :=
  filter (λ field, (field ∉ attrs) ∧ (field ∉ allowed_fields)) fields.

(** The entry [_validate_column_names] logs for a rejected field. *)
Definition column_msg (fp field : string) : string :=
  fp +:+ ": " +:+ PyStr.dq +:+ field +:+ PyStr.dq +:+ " is not a valid field".

(** The exception of [_validate_column_names], for the log it is built
    from. *)
Definition invalid_columns {U : Utils} (fp : string) (log : list string)
  : pyexn :=
  PyExn Exception
    ("Unable to parse " +:+ fp +:+ " due to invalid fields:"
     +:+ PyStr.nl +:+ bulleted_list log).

(** The session with [msgs] appended to its error log. *)
Definition log_all (msgs : list string) (self : CSVParser) : CSVParser :=
  mkCSVParser (files self) (resources self) (verbose_flag self)
    (post_flag self) (rollback_flag self) (categories self)
    (subcategories self) (err_log self ++ msgs).

(** Sessions with the same vocabulary snapshot. *)
Definition same_vocabulary (st1 st2 : CSVParser) : Prop :=
  categories st1 = categories st2 ∧ subcategories st1 = subcategories st2.

(** A computation that leaves the session as it is, and whose outcome
    depends on the session through the vocabulary only. *)
Definition reads_vocabulary {A} (c : M CSVParser A) : Prop :=
  ∀ st, (c st).2 = st
        ∧ ∀ st2, same_vocabulary st st2 → (c st2).1 = (c st).1.

(** The session with [records] appended to its resources. *)
Definition with_records (records : list ResourceDto) (self : CSVParser)
  : CSVParser :=
  mkCSVParser (files self) (resources self ++ records) (verbose_flag self)
    (post_flag self) (rollback_flag self) (categories self)
    (subcategories self) (err_log self).

(** *** Statement-level definitions for [upload] *)

(** The requests of [upload] for [resources] and the endpoint's answers,
    in order, starting from the endpoint state [srv]. *)
Fixpoint answers {E : Endpoint} (resources : list ResourceDto) (srv : Server)
  : list (ResourceDto * Response) :=
  match resources with
  | [] => []
  | r :: rs => let '(resp, srv') := post r srv in (r, resp) :: answers rs srv'
  end.

(** The endpoint state after these requests. *)
Fixpoint server_after {E : Endpoint} (resources : list ResourceDto)
    (srv : Server) : Server :=
  match resources with
  | [] => srv
  | r :: rs => server_after rs (post r srv).2
  end.

(** [data["data"]["id"]] of a response. *)
Definition response_id (resp : Response) : result json :=
  match subscript (data resp) "data" with
  | Ok d => subscript d "id"
  | Raise e => Raise e
  end.

(** A record was uploaded when the status of its answer is 200. *)
Definition succeeded (x : ResourceDto * Response) : Prop := status x.2 = 200.

(** An answer of status 200 carries an id. *)
Definition well_formed (x : ResourceDto * Response) : Prop :=
  succeeded x → is_ok (response_id x.2) = true.

Global Instance well_formed_dec x : Decision (well_formed x).
Proof. unfold well_formed, succeeded. apply _. Defined.

(** The ids of the records that were uploaded, in order. *)
Fixpoint rollback_ids (xs : list (ResourceDto * Response)) : list json :=
  match xs with
  | [] => []
  | x :: xs' =>
      if decide (succeeded x) then
        match response_id x.2 with
        | Ok i => i :: rollback_ids xs'
        | Raise _ => rollback_ids xs'
        end
      else rollback_ids xs'
  end.

(** The entry [upload] logs for a record that failed. *)
Definition failure_msg {E : Endpoint} (x : ResourceDto * Response) : string :=
  "Resource " +:+ format_pyval (businessName x.1) +:+
  " failed to upload: " +:+ py_str (data x.2).

(** The entries of the records that failed, in order. *)
Definition failure_msgs {E : Endpoint} (xs : list (ResourceDto * Response))
  : list string :=
  failure_msg <$> filter (λ x, ¬ succeeded x) xs.





(** ** Statement-level definitions for the further facts *)

(** The session changed by appending to the resources and to the error
    log, and in no other way. *)
Definition only_appended (st st' : CSVParser) : Prop :=
  ∃ records msgs, st' = log_all msgs (with_records records st).

(** *** File discovery *)

(** The paths at and under [fp] that [_process_fp] adds to the file set:
    the regular files whose path ends in [.csv], in listing order. *)
Fixpoint csv_paths (fp : string) (n : node) {struct n} : list string :=
  if PyStr.endswith fp ".csv" && isfile n then [fp]
  else match n with
       | Dir entries =>
           flat_map (λ e, csv_paths (fp +:+ "/" +:+ e.1) e.2) entries
       | _ => []
       end.

(** The paths at and under [fp] that do not exist, in listing order. *)
Fixpoint absent_paths (fp : string) (n : node) {struct n} : list string :=
  match n with
  | Dir entries =>
      flat_map (λ e, absent_paths (fp +:+ "/" +:+ e.1) e.2) entries
  | Absent => [fp]
  | _ => []
  end.

(** The entry [_process_fp] logs for a path that does not exist. *)
Definition path_msg (fp : string) : string :=
  "Path " +:+ PyStr.dq +:+ fp +:+ PyStr.dq +:+ " does not exist".

(** The session after the files [csvs] were added, one by one, and the
    paths [missing] were logged. *)
Definition discovered (csvs missing : list string) (self : CSVParser)
  : CSVParser :=
  mkCSVParser (foldl (λ X fp, {[fp]} ∪ X) (files self) csvs)
    (resources self) (verbose_flag self) (post_flag self)
    (rollback_flag self) (categories self) (subcategories self)
    (err_log self ++ (path_msg <$> missing)).

(** The arguments [_process_args] takes for paths: those that do not
    start with a dash. *)
Definition path_args (args : list string) : list string :=
  filter (λ s, PyStr.startswith s "-" = false) args.

(** The [.csv] files found at and under the path arguments, and the
    paths there that do not exist. *)
Definition found_csvs {Sys : System} (args : list string) : list string :=
  flat_map (λ s, csv_paths s (lookup_path s)) (path_args args).
Definition missing_paths {Sys : System} (args : list string) : list string :=
  flat_map (λ s, absent_paths s (lookup_path s)) (path_args args).

(** The session after one argument of [_process_args]. *)
Definition after_arg {Sys : System} (self : CSVParser) (s : string)
  : CSVParser :=
  if PyStr.startswith s "-" then (_set_flag s self).2
  else discovered (csv_paths s (lookup_path s))
                  (absent_paths s (lookup_path s)) self.

(** Whether one of the arguments is a flag that [_set_flag] takes for
    one of [names]: it starts with a dash, and [str.lower] maps it to one
    of them. *)
Definition flag_given {Sys : System} (names : list string)
    (args : list string) : bool :=
  existsb (λ s, PyStr.startswith s "-" && bool_decide (str_lower s ∈ names))
          args.

(** The exception of [_process_args] for paths that were not found. *)
Definition paths_not_found {U : Utils} (log : list string) : pyexn :=
  PyExn FileNotFoundError
    ("Some paths were not found:" +:+ PyStr.nl +:+ bulleted_list log).

(** Every path of the set ends in [.csv]. *)
Definition all_csv (X : gset string) : Prop :=
  ∀ p, p ∈ X → PyStr.endswith p ".csv" = true.

(** *** Further examples *)

Module Example.

(** A directory with a CSV file, a text file, a subdirectory holding a
    CSV file, and a link whose target is gone. *)
Definition data_dir : node :=
  Dir [("a.csv", File); ("notes.txt", File);
       ("sub", Dir [("b.csv", File)]); ("gone", Absent)].

(** A system where [data] is that directory, [x.csv] a regular file and
    nothing else exists; no file can be read. *)
Definition data_system : System :=
  Standin.system Standin.no_such_file
    (λ p, if decide (p = "data") then data_dir
          else if decide (p = "x.csv") then File else Absent).

(** Stand-ins for [utils] with a registry of a few members. *)
Definition registry : Standin.registry :=
  λ enum, match enum with
          | State => ["CA"; "NY"]
          | Cost => ["Free"; "Paid"]
          | Interest => ["STEM"; "Arts"]
          | _ => []
          end.

Definition utils : Utils := {|
  validate_field := Standin.validate_field;
  validate_enum_field := Standin.validate_enum_field registry;
  validate_list_enum_field := Standin.validate_list_enum_field registry;
  parse_grade := Standin.parse_grade;
  bulleted_list := Standin.bulleted_list;
  all_categories := Ok Standin.example_vocabulary;
|}.

(** A system with an empty file, a file with a column that is not
    valid, a file whose only row has an unknown category, and a file
    with one good row. *)
Definition mixed_files : System :=
  Standin.system
    (λ fp,
       if decide (fp = "empty.csv") then Ok (mkCsvFile None [])
       else if decide (fp = "header.csv") then
         Ok (mkCsvFile (Some ["businessName"; "fax"])
               [Standin.example_row "Acme" "Tutoring" "Math" EmptyString])
       else if decide (fp = "bad.csv") then
         Ok (mkCsvFile (Some ["businessName"; "category"; "subCategory"])
               [Standin.example_row "Beta" "X" "Math" EmptyString])
       else if decide (fp = "good.csv") then
         Ok (mkCsvFile (Some ["businessName"; "category"; "subCategory"])
               [Standin.example_row "Gamma" "Tutoring" "Math" EmptyString])
       else Standin.no_such_file fp)
    (λ fp, if decide (fp = "bad.csv") then File
           else if decide (fp = "good.csv") then File else Absent).

(** An endpoint like the stand-in, except that it answers a record
    named Broken with status 200 and no id. *)
Definition endpoint : Endpoint := {|
  Server := Z;
  post r next :=
    if decide (businessName r = PyStr "Broken") then
      (mkResponse 200 (JObj [("status", JStr "ok")]), next)
    else @post Standin.endpoint r next;
  py_str := @py_str Standin.endpoint;
|}.

(** The same system, iterating over a set in the opposite order. *)
Definition reversed (Sys : System) : System := {|
  read_csv := read_csv;
  lookup_path := lookup_path;
  str_lower := str_lower;
  str_lower_ascii := str_lower_ascii;
  set_order X := reverse (elements X);
  set_order_perm X := reverse_Permutation (elements X);
  getpid := getpid;
|}.

(** The session of the example with the bad and the good file
    discovered. *)
Definition mixed_session : CSVParser :=
  files_add "bad.csv" (files_add "good.csv" Standin.example_session).

(** A row with a grade span, a state and two career interests. *)
Definition full_row : Row :=
  <["GRADELEVEL" := PyStr "K-5"]>
    (<["state" := PyStr "ca"]>
       (<["careerInterest" := PyStr "STEM+Arts"]>
          (Standin.example_row "Acme" "Tutoring" "Math" "555-1212"))).

End Example.

(** *** The row normalizer *)

(** [row[key]] when the key is there. *)
Definition cell (row : Row) (key : string) : pyval :=
  default PyNone (row !! key).

(** The simple fields, in the order [_parse_row] goes through them. *)
Definition simple_fields : list string :=
  ["streetAddress"; "city"; "zipCode"; "phone"; "webSite"; "description"].

(** [getattr(resource, field)] for the six simple fields. *)
Definition getattr_simple (field : string) (r : ResourceDto) : pyval :=
  if decide (field = "streetAddress") then streetAddress r
  else if decide (field = "city") then city r
  else if decide (field = "zipCode") then zipCode r
  else if decide (field = "phone") then phone r
  else if decide (field = "webSite") then webSite r
  else if decide (field = "description") then description r
  else PyNone.

(** One round of the loop over the simple fields, when it raises
    nothing. *)
Definition simple_step {U : Utils} (row : Row) (r : ResourceDto)
    (field : string) : ResourceDto :=
  match validate_field field row with
  | Ok true => setattr_simple field (cell row field) r
  | _ => r
  end.

(** The round for [field] raises nothing: [validate_field] returns, and
    the row has the column when the result tests true. *)
Definition simple_ok {U : Utils} (row : Row) (field : string) : Prop :=
  ∃ b, validate_field field row = Ok b ∧ (b = true → is_Some (row !! field)).

(** The parts of a category cell. *)
Definition tokens (c : pyval) : list string :=
  match c with
  | PyStr s => PyStr.split "+" s
  | PyNone => []
  end.

(** The cell is a string, and each of its parts is in the vocabulary. *)
Definition category_ok (c : pyval) (subcategory : bool) (self : CSVParser)
  : Prop :=
  ∃ s, c = PyStr s
       ∧ Forall (λ p, p ∈ vocabulary subcategory self) (PyStr.split "+" s).

(** The grade step, when [parse_grade] raises nothing. *)
Definition grade_step {U : Utils} (row : Row) (r : ResourceDto)
  : ResourceDto :=
  match row !! "GRADELEVEL" with
  | Some raw =>
      match parse_grade raw with
      | Ok (Some g) => set_grades g r
      | _ => r
      end
  | None => r
  end.

(** [parse_grade] raises nothing on the grade column, if there is one. *)
Definition grade_ok {U : Utils} (row : Row) : Prop :=
  ∀ raw, row !! "GRADELEVEL" = Some raw → is_ok (parse_grade raw) = true.

(** The step for an enumerated attribute, when the validator raises
    nothing. *)
Definition enum_step (res : result (option EnumMember))
    (set : EnumMember → ResourceDto → ResourceDto) (r : ResourceDto)
  : ResourceDto :=
  match res with
  | Ok (Some v) => set v r
  | _ => r
  end.

(** The step for an attribute that lists enumeration members. *)
Definition list_enum_step (res : result (option (list EnumMember)))
    (set : list EnumMember → ResourceDto → ResourceDto) (r : ResourceDto)
  : ResourceDto :=
  match res with
  | Ok (Some (v :: vs)) => set (v :: vs) r
  | _ => r
  end.

(** The record [_parse_row] builds for a row, step by step in the order
    of the code, when no step raises. *)
Definition record_of {U : Utils} (row : Row) : ResourceDto :=
  let resource :=
    mkResourceDto 0 PyNone PyNone None PyNone PyNone PyNone PyNone PyNone
      None None None None None None None None None None in
  let resource := set_id 0 (set_businessName (cell row "businessName") resource) in
  let resource := foldl (simple_step row) resource simple_fields in
  let resource := set_category (tokens (cell row "category")) resource in
  let resource := set_subCategory (tokens (cell row "subCategory")) resource in
  let resource := grade_step row resource in
  let resource := enum_step (validate_enum_field State "state" row)
                    (λ v, set_state (Some v)) resource in
  let resource := list_enum_step
                    (validate_list_enum_field Interest "careerInterest" row)
                    set_careerInterest resource in
  let resource := enum_step (validate_enum_field Cost "cost" row)
                    set_cost resource in
  let resource := list_enum_step
                    (validate_list_enum_field InstructionType "instruction" row)
                    set_instruction resource in
  let resource := list_enum_step
                    (validate_list_enum_field BoardingType "boarding" row)
                    set_boarding resource in
  let resource := enum_step (validate_enum_field Gender "gender" row)
                    set_gender resource in
  list_enum_step (validate_list_enum_field LocationLimit "locationLimit" row)
    set_locationLimit resource.

(** No step of [_parse_row] raises for the row in the session. *)
Definition acceptable {U : Utils} (row : Row) (self : CSVParser) : Prop :=
  missing_fields row = []
  ∧ Forall (simple_ok row) simple_fields
  ∧ category_ok (cell row "category") false self
  ∧ category_ok (cell row "subCategory") true self
  ∧ grade_ok row
  ∧ is_ok (validate_enum_field State "state" row) = true
  ∧ is_ok (validate_list_enum_field Interest "careerInterest" row) = true
  ∧ is_ok (validate_enum_field Cost "cost" row) = true
  ∧ is_ok (validate_list_enum_field InstructionType "instruction" row) = true
  ∧ is_ok (validate_list_enum_field BoardingType "boarding" row) = true
  ∧ is_ok (validate_enum_field Gender "gender" row) = true
  ∧ is_ok (validate_list_enum_field LocationLimit "locationLimit" row) = true.

(** What [if res := ...] keeps of a list result: the list when it is not
    empty. *)
Definition if_nonempty {A} (res : option (list A)) : option (list A) :=
  match res with
  | Some (v :: vs) => Some (v :: vs)
  | _ => None
  end.

(** The grade attributes after the grade step on a fresh record. *)
Definition grades_of {U : Utils} (row : Row) : option string * option string :=
  match row !! "GRADELEVEL" with
  | Some raw =>
      match parse_grade raw with
      | Ok (Some g) => (Some g.1, Some g.2)
      | _ => (None, None)
      end
  | None => (None, None)
  end.

(** * Facts *)

(** ** The monad *)

Lemma bind_ok {S A B} (c : M S A) (k : A → M S B) st a st1 :
  c st = (Ok a, st1) → bind c k st = k a st1.
Proof. intros H. unfold bind. by rewrite H. Qed.

Lemma bind_raise {S A B} (c : M S A) (k : A → M S B) st e st1 :
  c st = (Raise e, st1) → bind c k st = (Raise e, st1).
Proof. intros H. unfold bind. by rewrite H. Qed.

Lemma bind_ok_inv {S A B} (c : M S A) (k : A → M S B) st b st2 :
  bind c k st = (Ok b, st2) →
  ∃ a st1, c st = (Ok a, st1) ∧ k a st1 = (Ok b, st2).
Proof.
  unfold bind. destruct (c st) as [[a|e] st1]; intros H.
  - by exists a, st1.
  - discriminate.
Qed.

Lemma for_fold_app {S A B} (xs ys : list A) (acc : B) body (st : S) :
  for_fold (xs ++ ys) acc body st =
  bind (for_fold xs acc body) (λ acc', for_fold ys acc' body) st.
Proof.
  revert acc st. induction xs as [|x xs IH]; intros acc st; simpl.
  - reflexivity.
  - unfold bind in *. destruct (body acc x st) as [[acc'|e] st1].
    + apply IH.
    + reflexivity.
Qed.

Lemma gather_cons_ok {S A} (t : M S A) (ts : list (M S A)) st a st1 l st2 :
  t st = (Ok a, st1) → gather ts st1 = (Ok l, st2) →
  gather (t :: ts) st = (Ok (a :: l), st2).
Proof. intros Ht Hts. simpl. by rewrite Ht, Hts. Qed.

(** An element on which the body does nothing can be left out. *)
Lemma for_fold_skip {S A B} (xs ys : list A) (y : A) (acc : B) body (st : S) :
  (∀ a s, body a y s = (Ok a, s)) →
  for_fold (xs ++ y :: ys) acc body st = for_fold (xs ++ ys) acc body st.
Proof.
  intros Hy. revert acc st. induction xs as [|x xs IH]; intros acc st; simpl.
  - unfold bind. by rewrite Hy.
  - unfold bind. destruct (body acc x st) as [[acc'|e] st1]; [apply IH|done].
Qed.

(** ** Facts about Python strings *)

Lemma split_nonempty sep s : PyStr.split sep s ≠ [].
Proof.
  destruct s as [|c s]; simpl; [done|].
  destruct (Ascii.eqb c sep); [done|].
  by destruct (PyStr.split sep s).
Qed.

Lemma app_cons (c : ascii) (s t : string) :
  String c s +:+ t = String c (s +:+ t).
Proof. reflexivity. Qed.

(** Splitting a string and joining the parts gives the string back. *)
Lemma join_split (sep : ascii) (s : string) :
  PyStr.join (String sep EmptyString) (PyStr.split sep s) = s.
Proof.
  induction s as [|c s IH]; simpl; [done|].
  pose proof (split_nonempty sep s) as Hs.
  destruct (PyStr.split sep s) as [|t ts] eqn:E; [done|].
  destruct (Ascii.eqb_spec c sep) as [->|Hne].
  - change (PyStr.join (String sep EmptyString) (EmptyString :: t :: ts))
      with (String sep (PyStr.join (String sep EmptyString) (t :: ts))).
    by rewrite IH.
  - destruct ts as [|t' ts]; simpl in *.
    + by rewrite IH.
    + rewrite app_cons. by rewrite IH.
Qed.

Lemma split_no_sep sep t : PyStr.contains sep t = false → PyStr.split sep t = [t].
Proof.
  induction t as [|c t IH]; simpl; [done|].
  intros [Hc Ht]%orb_false_iff. rewrite Hc, (IH Ht). done.
Qed.

Lemma split_token_sep sep t rest :
  PyStr.contains sep t = false →
  PyStr.split sep (t +:+ String sep rest) = t :: PyStr.split sep rest.
Proof.
  induction t as [|c t IH]; simpl.
  - intros _. by rewrite Ascii.eqb_refl.
  - intros [Hc Ht]%orb_false_iff. by rewrite Hc, (IH Ht).
Qed.

(** Joining tokens that hold no separator, and splitting, gives the
    tokens back: same order, duplicates kept. *)
Lemma split_join (sep : ascii) (tokens : list string) :
  tokens ≠ [] →
  Forall (λ t, PyStr.contains sep t = false) tokens →
  PyStr.split sep (PyStr.join (String sep EmptyString) tokens) = tokens.
Proof.
  intros Hne Hall. induction Hall as [|t ts Ht Hts IH]; [done|].
  destruct ts as [|t' ts].
  - simpl. by apply split_no_sep.
  - change (PyStr.join (String sep EmptyString) (t :: t' :: ts))
      with (t +:+ String sep (PyStr.join (String sep EmptyString) (t' :: ts))).
    rewrite split_token_sep by done. by rewrite IH.
Qed.

(** ** The category validator *)

Lemma validate_category_field_unfold (s : string) (sub : bool) :
  _validate_category_field (PyStr s) sub =
  bind (check_tokens sub (PyStr.split "+" s))
       (λ _, ret (PyStr.split "+" s)).
Proof. reflexivity. Qed.

Lemma check_tokens_ok sub parts st :
  Forall (λ p, p ∈ vocabulary sub st) parts →
  check_tokens sub parts st = (Ok tt, st).
Proof.
  induction 1 as [|p ps Hp Hps IH]; [done|].
  unfold check_tokens in *. simpl. unfold bind at 1 2. simpl.
  destruct (decide (p ∉ vocabulary sub st)) as [Hn|_]; [done|].
  unfold ret at 1. exact IH.
Qed.

Lemma check_tokens_first_unknown sub pre t post st :
  Forall (λ p, p ∈ vocabulary sub st) pre →
  t ∉ vocabulary sub st →
  check_tokens sub (pre ++ t :: post) st =
  (Raise (PyExn Exception (unknown_category_msg sub t)), st).
Proof.
  intros Hpre Ht. induction Hpre as [|p ps Hp Hps IH].
  - unfold check_tokens. simpl. unfold bind at 1 2. simpl.
    destruct (decide (t ∉ vocabulary sub st)) as [_|Hn]; [done|].
    by destruct Hn.
  - unfold check_tokens in *. simpl. unfold bind at 1 2. simpl.
    destruct (decide (p ∉ vocabulary sub st)) as [Hn|_]; [done|].
    unfold ret at 1. exact IH.
Qed.

Lemma validate_category_field_ok (s : string) (sub : bool) (st : CSVParser) :
  Forall (λ p, p ∈ vocabulary sub st) (PyStr.split "+" s) →
  _validate_category_field (PyStr s) sub st = (Ok (PyStr.split "+" s), st).
Proof.
  intros Hall. rewrite validate_category_field_unfold.
  by rewrite (bind_ok _ _ _ _ _ (check_tokens_ok _ _ _ Hall)).
Qed.

Lemma validate_category_field_unknown
    (s : string) (sub : bool) (st : CSVParser) pre t post :
  PyStr.split "+" s = pre ++ t :: post →
  Forall (λ p, p ∈ vocabulary sub st) pre →
  t ∉ vocabulary sub st →
  _validate_category_field (PyStr s) sub st =
  (Raise (PyExn Exception (unknown_category_msg sub t)), st).
Proof.
  intros Hparts Hpre Ht. rewrite validate_category_field_unfold, Hparts.
  by rewrite (bind_raise _ _ _ _ _
                (check_tokens_first_unknown _ _ _ post _ Hpre Ht)).
Qed.

(** C1, as amended: the validator splits the value on [+] and checks each
    part as it stands, without trimming it. It returns the parts when every
    one of them is in the vocabulary, and otherwise raises the exception
    that names the first part that is not. The session is left as it
    was. *)
Theorem validate_category_field_untrimmed
    (s : string) (sub : bool) (st : CSVParser) :
  let parts := PyStr.split "+" s in
  (Forall (λ p, p ∈ vocabulary sub st) parts →
   _validate_category_field (PyStr s) sub st = (Ok parts, st))
  ∧ (∀ pre t post,
       parts = pre ++ t :: post →
       Forall (λ p, p ∈ vocabulary sub st) pre →
       t ∉ vocabulary sub st →
       _validate_category_field (PyStr s) sub st =
       (Raise (PyExn Exception (unknown_category_msg sub t)), st)).
Proof.
  intros parts. split.
  - apply validate_category_field_ok.
  - intros pre t post. apply validate_category_field_unknown.
Qed.

(** C8: for tokens that are all in the vocabulary (and so hold no [+]),
    the validator applied to the tokens joined by [+] returns exactly the
    tokens: same order, duplicates kept; and joining its result by [+]
    gives the input value back. *)
Theorem validate_category_field_order
    (tokens : list string) (sub : bool) (st : CSVParser) :
  tokens ≠ [] →
  Forall (λ t, PyStr.contains "+" t = false) tokens →
  Forall (λ t, t ∈ vocabulary sub st) tokens →
  _validate_category_field (PyStr (PyStr.join "+" tokens)) sub st
  = (Ok tokens, st)
  ∧ ∀ s result st',
      _validate_category_field (PyStr s) sub st = (Ok result, st') →
      result = PyStr.split "+" s ∧ PyStr.join "+" result = s.
Proof.
  intros Hne Hplus Hall. split.
  - pose proof (validate_category_field_ok (PyStr.join "+" tokens) sub st)
      as Hok.
    rewrite (split_join "+" tokens Hne Hplus) in Hok. by apply Hok.
  - intros s result st'. rewrite validate_category_field_unfold.
    intros (u & st1 & _ & Hret)%bind_ok_inv. inversion Hret; subst.
    split; [done|]. apply (join_split "+").
Qed.

(** Membership in a concrete set, decided by evaluation. *)
Ltac by_evaluation := apply (bool_decide_unpack _); vm_compute; exact I.

(** Witness of C1's theorem: a value of two known categories, and a value
    whose second part is unknown. *)
Lemma validate_category_field_untrimmed_witness :
  _validate_category_field (PyStr "Tutoring+Mentoring") false
    Standin.two_categories
  = (Ok ["Tutoring"; "Mentoring"], Standin.two_categories)
  ∧ _validate_category_field (PyStr "Tutoring+X+Y") false
      Standin.two_categories
    = (Raise (PyExn Exception (unknown_category_msg false "X")),
       Standin.two_categories).
Proof.
  split.
  - apply (validate_category_field_untrimmed "Tutoring+Mentoring").
    repeat constructor; by_evaluation.
  - apply (validate_category_field_untrimmed "Tutoring+X+Y" false
             Standin.two_categories) with (pre := ["Tutoring"]) (post := ["Y"]).
    + reflexivity.
    + repeat constructor; by_evaluation.
    + by_evaluation.
Defined.

(** C1, as the specification states it, fails: every trimmed part of
    the value is a known category, and the validator still rejects the
    value, naming the untrimmed part. *)
Lemma validate_category_field_does_not_trim :
  Forall (λ p, PyStr.strip p ∈ categories Standin.two_categories)
         (PyStr.split "+" "Tutoring+ Mentoring")
  ∧ _validate_category_field (PyStr "Tutoring+ Mentoring") false
      Standin.two_categories
    = (Raise (PyExn Exception (unknown_category_msg false " Mentoring")),
       Standin.two_categories).
Proof.
  split.
  - repeat constructor; by_evaluation.
  - vm_compute. reflexivity.
Qed.

(** Witness of C8's theorem: three tokens, one of them twice. *)
Lemma validate_category_field_order_witness :
  _validate_category_field (PyStr "Tutoring+Mentoring+Tutoring") false
    Standin.two_categories
  = (Ok ["Tutoring"; "Mentoring"; "Tutoring"], Standin.two_categories).
Proof.
  apply (validate_category_field_order
           ["Tutoring"; "Mentoring"; "Tutoring"] false Standin.two_categories).
  - done.
  - repeat constructor.
  - repeat constructor; by_evaluation.
Defined.

(** ** Scanning loops that log every offender *)

Lemma log_all_nil st : log_all [] st = st.
Proof. destruct st. unfold log_all. simpl. by rewrite app_nil_r. Qed.

Lemma log_all_cons m ms st :
  log_all (m :: ms) st = log_all ms (err_log_append m st).
Proof. unfold log_all, err_log_append. simpl. by rewrite <- app_assoc. Qed.

(** A loop that appends an entry for every element satisfying [P] and
    sets a flag: it runs to the end of the list, logs the entries of all
    offenders in order, and the flag tells whether there was one. *)
Lemma scan_loop {A} (b : A → bool) (P : A → Prop) `{!∀ x, Decision (P x)}
    (msg : A → string) (xs : list A) (err : bool) (st : CSVParser) :
  (∀ x, b x = bool_decide (P x)) →
  for_fold xs err
    (λ err x, if b x then modify (err_log_append (msg x)) ;;; ret true
              else ret err) st
  = (Ok (err || bool_decide (filter P xs ≠ [])),
     log_all (msg <$> filter P xs) st).
Proof.
  intros Hb. revert err st. induction xs as [|x xs IH]; intros err st.
  - simpl. rewrite log_all_nil, orb_false_r. done.
  - simpl. unfold bind at 1. rewrite Hb.
    rewrite filter_cons. destruct (decide (P x)) as [HP|HP].
    + rewrite (bool_decide_eq_true_2 _ HP). unfold bind at 1. simpl.
      rewrite IH. rewrite log_all_cons. simpl. by rewrite orb_true_r.
    + rewrite (bool_decide_eq_false_2 _ HP). simpl. by rewrite IH.
Qed.

Lemma validate_required_fields_eq {U : Utils} (row : Row) (st : CSVParser) :
  _validate_required_fields row st =
  if decide (missing_fields row = []) then (Ok tt, st)
  else let st' := log_all (required_msg <$> missing_fields row) st in
       (Raise (missing_required_field (err_log st')), st').
Proof.
  unfold _validate_required_fields, missing_fields.
  erewrite bind_ok; last first.
  { apply (scan_loop (λ f, bool_decide (row !! f = None))
             (λ f, row !! f = None) required_msg). done. }
  fold required_fields. destruct (decide (filter _ required_fields = [])) as [E|E].
  - rewrite E. simpl. by rewrite log_all_nil.
  - rewrite (bool_decide_eq_true_2 _ E). reflexivity.
Qed.

Lemma validate_column_names_eq {U : Utils} {Sch : Schema} fp fields (st : CSVParser) :
  _validate_column_names fp fields st =
  if decide (invalid_fields fields = []) then (Ok tt, st)
  else let st' := log_all (column_msg fp <$> invalid_fields fields) st in
       (Raise (invalid_columns fp (err_log st')), st').
Proof.
  unfold _validate_column_names, invalid_fields.
  erewrite bind_ok; last first.
  { apply (scan_loop
             (λ f, bool_decide (f ∉ attrs) && bool_decide (f ∉ allowed_fields))
             (λ f, (f ∉ attrs) ∧ (f ∉ allowed_fields)) (column_msg fp)).
    intros f. by rewrite bool_decide_and. }
  destruct (decide (filter _ fields = [])) as [E|E].
  - rewrite E. simpl. by rewrite log_all_nil.
  - rewrite (bool_decide_eq_true_2 _ E). reflexivity.
Qed.

(** ** The required-field check and the header check *)

Lemma filter_nil_Forall {A} (P : A → Prop) `{!∀ x, Decision (P x)}
    (l : list A) :
  filter P l = [] ↔ Forall (λ x, ¬ P x) l.
Proof.
  induction l as [|x l IH]; [by split; [constructor|]|].
  rewrite filter_cons, Forall_cons. destruct (decide (P x)) as [HP|HP].
  - split; [discriminate|]. by intros [? _].
  - rewrite IH. tauto.
Qed.

Lemma missing_fields_nil (row : Row) :
  missing_fields row = [] ↔
  ¬ (row !! "businessName" = None ∨ row !! "category" = None
     ∨ row !! "subCategory" = None).
Proof.
  unfold missing_fields, required_fields.
  rewrite !filter_cons, filter_nil.
  destruct (decide (row !! "businessName" = None));
    destruct (decide (row !! "category" = None));
    destruct (decide (row !! "subCategory" = None));
    (split; [try discriminate; intros _; tauto
            |intros Hn; first [reflexivity | exfalso; tauto]]).
Qed.

(** C4: the required-field check raises exactly when one of the keys
    [businessName], [category], [subCategory] is absent from the row. It
    scans all three first: an entry for every missing key is appended to
    the error log, in that order, and the exception is built from the log.
    [_parse_row] runs the check first, so it raises the same exception. *)
Theorem required_fields_all_listed {U : Utils} (row : Row) (st : CSVParser) :
  let st' := log_all (required_msg <$> missing_fields row) st in
  (∀ field, field ∈ missing_fields row ↔
            field ∈ required_fields ∧ row !! field = None)
  ∧ (is_ok (_validate_required_fields row st).1 = false ↔
     row !! "businessName" = None ∨ row !! "category" = None
     ∨ row !! "subCategory" = None)
  ∧ (missing_fields row = [] →
     _validate_required_fields row st = (Ok tt, st))
  ∧ (missing_fields row ≠ [] →
     _validate_required_fields row st
     = (Raise (missing_required_field (err_log st')), st')
     ∧ _parse_row row st
       = (Raise (missing_required_field (err_log st')), st')).
Proof.
  intros st'. pose proof (validate_required_fields_eq row st) as Heq.
  split; [|split; [|split]].
  - intros field. unfold missing_fields. rewrite list_elem_of_filter.
    tauto.
  - rewrite Heq. destruct (decide (missing_fields row = [])) as [E|E].
    + simpl. apply missing_fields_nil in E.
      split; [discriminate|intros ?; exfalso; tauto].
    + simpl. split; [intros _|done].
      destruct (decide (row !! "businessName" = None ∨ row !! "category" = None
                        ∨ row !! "subCategory" = None)) as [|Hn]; [done|].
      by apply missing_fields_nil in Hn.
  - intros E. rewrite Heq. by rewrite decide_True.
  - intros E. rewrite decide_False in Heq by done. split; [done|].
    unfold _parse_row. by apply bind_raise.
Qed.

(** Witness of C4's theorem: a row with a name and neither category
    column, checked in the session of the example. *)
Lemma required_fields_all_listed_witness :
  _parse_row (U := Standin.utils)
    {["businessName" := PyStr "Acme"]} Standin.example_session
  = (Raise (missing_required_field (U := Standin.utils)
              [required_msg "category"; required_msg "subCategory"]),
     log_all [required_msg "category"; required_msg "subCategory"]
       Standin.example_session).
Proof.
  destruct (required_fields_all_listed (U := Standin.utils)
              {["businessName" := PyStr "Acme"]} Standin.example_session)
    as (_ & _ & _ & Hmissing).
  destruct Hmissing as [_ Hrow]; [by vm_compute|].
  rewrite Hrow. vm_compute. reflexivity.
Defined.

(** C5: the header check raises exactly when some header field is
    neither an attribute of the record nor an allowed extra field. It
    scans the whole header first: an entry for every offending field is
    appended to the error log, in header order, and the exception is
    built from the log. *)
Theorem column_names_all_listed {U : Utils} {Sch : Schema}
    (fp : string) (fields : list string) (st : CSVParser) :
  let st' := log_all (column_msg fp <$> invalid_fields fields) st in
  (∀ field, field ∈ invalid_fields fields ↔
            field ∈ fields ∧ (field ∉ attrs) ∧ (field ∉ allowed_fields))
  ∧ (Forall (λ field, (field ∈ attrs) ∨ (field ∈ allowed_fields)) fields →
     _validate_column_names fp fields st = (Ok tt, st))
  ∧ (Exists (λ field, (field ∉ attrs) ∧ (field ∉ allowed_fields)) fields →
     _validate_column_names fp fields st
     = (Raise (invalid_columns fp (err_log st')), st')).
Proof.
  intros st'. pose proof (validate_column_names_eq fp fields st) as Heq.
  split; [|split].
  - intros field. unfold invalid_fields. rewrite list_elem_of_filter.
    tauto.
  - intros Hall. rewrite Heq, decide_True; [done|].
    unfold invalid_fields. apply filter_nil_Forall.
    eapply Forall_impl; [exact Hall|]. intros f [Hf|Hf] [??]; done.
  - intros Hex. rewrite Heq, decide_False; [done|].
    unfold invalid_fields. rewrite filter_nil_Forall.
    intros Hall. apply Exists_exists in Hex as (f & Hin & Hf).
    rewrite Forall_forall in Hall. by apply (Hall f).
Qed.

(** Witness of C5's theorem: a header of the record's columns passes;
    a header with two unknown columns is rejected with both logged. *)
Lemma column_names_all_listed_witness :
  _validate_column_names (U := Standin.utils) (Sch := Standin.schema) "a.csv"
    ["businessName"; "category"; "subCategory"; "phone"; "GRADELEVEL"]
    Standin.example_session
  = (Ok tt, Standin.example_session)
  ∧ _validate_column_names (U := Standin.utils) (Sch := Standin.schema) "a.csv"
      ["businessName"; "fax"; "category"; "email"] Standin.example_session
    = (Raise (invalid_columns (U := Standin.utils) "a.csv"
                [column_msg "a.csv" "fax"; column_msg "a.csv" "email"]),
       log_all [column_msg "a.csv" "fax"; column_msg "a.csv" "email"]
         Standin.example_session).
Proof.
  split.
  - apply (column_names_all_listed (U := Standin.utils) (Sch := Standin.schema)).
    repeat constructor; by_evaluation.
  - destruct (column_names_all_listed (U := Standin.utils)
                (Sch := Standin.schema) "a.csv"
                ["businessName"; "fax"; "category"; "email"]
                Standin.example_session) as (_ & _ & Hbad).
    rewrite Hbad.
    + vm_compute. reflexivity.
    + apply Exists_cons_tl, Exists_cons_hd. split; by_evaluation.
Defined.



(** ** File discovery *)

Lemma process_fp_other (fp : string) (n : node) (st : CSVParser) :
  exists_ n = true → isdir n = false →
  PyStr.endswith fp ".csv" && isfile n = false →
  _process_fp fp n st = (Ok 0, st).
Proof.
  intros Hex Hdir Hcsv. destruct n; simpl in *; try discriminate.
  - rewrite Hcsv. reflexivity.
  - rewrite andb_false_r. reflexivity.
Qed.

Lemma set_flag_keeps {Sys : System} (flag : string) (st : CSVParser) :
  ∃ st', _set_flag flag st = (Ok tt, st')
         ∧ files st' = files st ∧ err_log st' = err_log st.
Proof.
  unfold _set_flag. repeat case_decide; eexists; split; try reflexivity; done.
Qed.

(** C9: a path that exists and is neither a directory nor a regular
    file with a name ending in [.csv] is ignored: [_process_fp] returns
    a failure count of 0 and leaves the session as it was (nothing added
    to the file set, nothing logged); as the only argument it makes
    [_process_args] return without raising; and among other arguments it
    changes nothing of what the loop over the arguments does. *)
Theorem process_fp_ignores_other_paths {U : Utils} {Sys : System}
    (fp : string) (n : node) (st : CSVParser) :
  exists_ n = true →
  isdir n = false →
  PyStr.endswith fp ".csv" && isfile n = false →
  _process_fp fp n st = (Ok 0, st)
  ∧ (lookup_path fp = n →
     (∀ prog, ∃ st',
        _process_args [prog; fp] st = (Ok tt, st')
        ∧ files st' = files st ∧ err_log st' = err_log st)
     ∧ (PyStr.startswith fp "-" = false →
        ∀ before after st0,
          scan_args (before ++ fp :: after) st0
          = scan_args (before ++ after) st0)).
Proof.
  intros Hex Hdir Hcsv. split; [by apply process_fp_other|].
  intros Hn. split.
  - intros prog. unfold _process_args. simpl.
    unfold scan_args. simpl. unfold bind at 1 2.
    destruct (PyStr.startswith fp "-").
    + destruct (set_flag_keeps fp st) as (st' & Hflag & Hfiles & Hlog).
      rewrite (bind_ok _ _ _ _ _ Hflag). simpl.
      exists st'. split; [reflexivity|done].
    + rewrite Hn. rewrite (bind_ok _ _ _ _ _ (process_fp_other _ _ _ Hex Hdir Hcsv)).
      simpl. exists st. split; [reflexivity|done].
  - intros Hflag before after st0. unfold scan_args.
    apply for_fold_skip. intros a s. rewrite Hflag, Hn.
    rewrite (bind_ok _ _ _ _ _ (process_fp_other _ _ _ Hex Hdir Hcsv)).
    unfold ret. by rewrite Z.add_0_r.
Qed.

(** Witness of C9's theorem: a text file named on the command line. *)
Lemma process_fp_ignores_other_paths_witness :
  _process_fp "notes.txt" File CSVParser_init = (Ok 0, CSVParser_init)
  ∧ ∃ st',
      _process_args (U := Standin.utils) (Sys := Standin.notes_system)
        ["main.py"; "notes.txt"] CSVParser_init = (Ok tt, st')
      ∧ files st' = files CSVParser_init
      ∧ err_log st' = err_log CSVParser_init.
Proof.
  destruct (process_fp_ignores_other_paths (U := Standin.utils)
              (Sys := Standin.notes_system) "notes.txt" File CSVParser_init)
    as [Hfp Hargs]; [reflexivity..|].
  split; [exact Hfp|].
  destruct Hargs as [Hargs _]; [reflexivity|]. apply Hargs.
Defined.

(** ** Computations that only read the vocabulary *)

Lemma rv_ret {A} (a : A) : reads_vocabulary (ret a).
Proof. by intros st. Qed.

Lemma rv_raise {A} e : reads_vocabulary (raise (A := A) e).
Proof. by intros st. Qed.

Lemma rv_lift {A} (r : result A) : reads_vocabulary (lift r).
Proof. by intros st. Qed.

Lemma rv_getitem (row : Row) key : reads_vocabulary (getitem row key).
Proof. unfold getitem. destruct (row !! key); [apply rv_ret|apply rv_raise]. Qed.

Lemma rv_bind {A B} (c : M CSVParser A) (k : A → M CSVParser B) :
  reads_vocabulary c → (∀ a, reads_vocabulary (k a)) →
  reads_vocabulary (bind c k).
Proof.
  intros Hc Hk st. destruct (Hc st) as [Hst Hres]. unfold bind.
  destruct (c st) as [r st1] eqn:E. simpl in Hst. subst st1. split.
  - destruct r as [a|e]; [apply (Hk a st)|done].
  - intros st2 Hsame. specialize (Hres st2 Hsame).
    destruct (Hc st2) as [Hst2 _].
    destruct (c st2) as [r2 st2'] eqn:E2. simpl in *. subst.
    destruct r as [a|e]; [|done]. by apply (Hk a st).
Qed.

Lemma rv_for_fold {A B} (xs : list A) (acc : B) body :
  (∀ acc x, reads_vocabulary (body acc x)) →
  reads_vocabulary (for_fold xs acc body).
Proof.
  intros Hbody. revert acc. induction xs as [|x xs IH]; intros acc; simpl.
  - apply rv_ret.
  - apply rv_bind; [apply Hbody|apply IH].
Qed.

Lemma rv_check_tokens sub parts : reads_vocabulary (check_tokens sub parts).
Proof.
  unfold check_tokens. induction parts as [|p ps IH]; simpl.
  - apply rv_ret.
  - apply rv_bind; [|intros _; apply IH].
    intros st. unfold bind, get. split.
    + by destruct (decide (p ∉ vocabulary sub st)).
    + intros st2 [Hc Hs].
      assert (vocabulary sub st2 = vocabulary sub st) as ->
        by (unfold vocabulary; destruct sub; congruence).
      by destruct (decide (p ∉ vocabulary sub st)).
Qed.

Lemma rv_validate_category_field c sub :
  reads_vocabulary (_validate_category_field c sub).
Proof.
  destruct c as [|s]; [apply rv_raise|].
  rewrite validate_category_field_unfold.
  apply rv_bind; [apply rv_check_tokens|intros _; apply rv_ret].
Qed.

Lemma rv_apply_enum {U : Utils} enum field row set resource :
  reads_vocabulary (apply_enum enum field row set resource).
Proof.
  unfold apply_enum. apply rv_bind; [apply rv_lift|].
  intros [v|]; apply rv_ret.
Qed.

Lemma rv_apply_list_enum {U : Utils} enum field row set resource :
  reads_vocabulary (apply_list_enum enum field row set resource).
Proof.
  unfold apply_list_enum. apply rv_bind; [apply rv_lift|].
  intros [[|v vs]|]; apply rv_ret.
Qed.

Ltac rv_step :=
  first
    [ apply rv_ret | apply rv_raise | apply rv_lift | apply rv_getitem
    | apply rv_validate_category_field | apply rv_apply_enum
    | apply rv_apply_list_enum
    | apply rv_for_fold; intros
    | apply rv_bind; [|intros]
    | match goal with
      | |- reads_vocabulary (match ?x with _ => _ end) => destruct x
      end ].

(** [_parse_row] is the required-field check followed by a computation
    that only reads the vocabulary. *)
Lemma parse_row_split {U : Utils} (row : Row) :
  ∃ fields : M CSVParser ResourceDto,
    reads_vocabulary fields
    ∧ _parse_row row = bind (_validate_required_fields row) (λ _, fields).
Proof.
  eexists. split; [|unfold _parse_row; reflexivity].
  repeat rv_step.
Qed.

(** ** The row normalizer *)

(** Whatever [_parse_row] does, it changes the session by appending to
    the error log at most. *)
Lemma parse_row_state {U : Utils} (row : Row) st r st' :
  _parse_row row st = (r, st') → ∃ msgs, st' = log_all msgs st.
Proof.
  destruct (parse_row_split row) as (fields & Hrv & ->).
  unfold bind. rewrite validate_required_fields_eq.
  destruct (decide (missing_fields row = [])) as [E|E]; simpl.
  - destruct (Hrv st) as [Hst _]. destruct (fields st) as [r1 st1].
    simpl in Hst. intros [= <- <-]. exists []. by rewrite log_all_nil.
  - intros [= <- <-]. by eexists.
Qed.

(** An accepted row has its required columns, leaves the session as it
    was, and is accepted with the same record in every session with the
    same vocabulary. *)
Lemma parse_row_ok {U : Utils} (row : Row) st r st' :
  _parse_row row st = (Ok r, st') →
  st' = st ∧ missing_fields row = []
  ∧ ∀ st2, same_vocabulary st st2 → _parse_row row st2 = (Ok r, st2).
Proof.
  destruct (parse_row_split row) as (fields & Hrv & ->).
  unfold bind. rewrite validate_required_fields_eq.
  destruct (decide (missing_fields row = [])) as [E|E]; simpl; [|done].
  destruct (Hrv st) as [Hst Hres]. intros Hf. rewrite Hf in Hst, Hres.
  simpl in *. subst st'. split; [done|]. split; [done|].
  intros st2 Hsame. rewrite validate_required_fields_eq, decide_True by done.
  destruct (Hrv st2) as [Hst2 _]. specialize (Hres st2 Hsame).
  destruct (fields st2) as [r2 st2']. simpl in *. by subst.
Qed.

Lemma setattr_simple_name field v r :
  businessName (setattr_simple field v r) = businessName r.
Proof. unfold setattr_simple. by repeat case_decide. Qed.

Lemma simple_fields_name {U : Utils} (row : Row) fields r
    (st : CSVParser) r' st' :
  for_fold fields r
    (λ resource field,
       res <- lift (validate_field field row) ;;
       if (res : bool) then
         v <- getitem row field ;; ret (setattr_simple field v resource)
       else ret resource) st = (Ok r', st') →
  businessName r' = businessName r.
Proof.
  revert r st. induction fields as [|f fs IH]; intros r st; simpl.
  - by intros [= <- <-].
  - intros (r1 & st1 & Hstep & Hrest)%bind_ok_inv.
    rewrite (IH _ _ Hrest).
    apply bind_ok_inv in Hstep as (b & st0 & _ & Hset).
    destruct b.
    + apply bind_ok_inv in Hset as (v & ? & _ & [= <- <-]).
      apply setattr_simple_name.
    + by inversion Hset.
Qed.

Lemma apply_enum_name {U : Utils} enum field row set r st r' st' :
  (∀ v x, businessName (set v x) = businessName x) →
  apply_enum enum field row set r st = (Ok r', st') →
  businessName r' = businessName r.
Proof.
  intros Hset (res & ? & _ & H)%bind_ok_inv.
  destruct res; inversion H; subst; [apply Hset|done].
Qed.

Lemma apply_list_enum_name {U : Utils} enum field row set r st r' st' :
  (∀ v x, businessName (set v x) = businessName x) →
  apply_list_enum enum field row set r st = (Ok r', st') →
  businessName r' = businessName r.
Proof.
  intros Hset (res & ? & _ & H)%bind_ok_inv.
  destruct res as [[|v vs]|]; inversion H; subst; [done|apply Hset|done].
Qed.

(** C3, as amended: the record of an accepted row carries the row's
    [businessName] cell exactly as the reader gave it. The cell is not
    checked: the name is a string whenever the cell is one, and it is the
    empty string when the cell is empty. *)
Theorem parse_row_business_name {U : Utils} (row : Row) st r st' :
  _parse_row row st = (Ok r, st') →
  row !! "businessName" = Some (businessName r)
  ∧ ∀ s, row !! "businessName" = Some (PyStr s) → businessName r = PyStr s.
Proof.
  intros H.
  assert (row !! "businessName" = Some (businessName r)) as Hname;
    [|split; [done|congruence]].
  unfold _parse_row in H.
  apply bind_ok_inv in H as ([] & st1 & _ & H).
  apply bind_ok_inv in H as (name & st2 & Hget & H).
  unfold getitem in Hget. destruct (row !! "businessName") as [v|]; [|done].
  injection Hget as <- <-. f_equal.
  apply bind_ok_inv in H as (r1 & ? & H1%simple_fields_name & H).
  apply bind_ok_inv in H as (c & ? & _ & H).
  apply bind_ok_inv in H as (cats & ? & _ & H).
  apply bind_ok_inv in H as (sc & ? & _ & H).
  apply bind_ok_inv in H as (subcats & ? & _ & H).
  apply bind_ok_inv in H as (r2 & ? & H2 & H).
  assert (businessName r2 = businessName r1) as E2.
  { destruct (row !! "GRADELEVEL"); [|by inversion H2].
    apply bind_ok_inv in H2 as (g & ? & _ & H2).
    destruct g; by inversion H2. }
  apply bind_ok_inv in H as (r3 & ? & H3%apply_enum_name & H); [|done].
  apply bind_ok_inv in H as (r4 & ? & H4%apply_list_enum_name & H); [|done].
  apply bind_ok_inv in H as (r5 & ? & H5%apply_enum_name & H); [|done].
  apply bind_ok_inv in H as (r6 & ? & H6%apply_list_enum_name & H); [|done].
  apply bind_ok_inv in H as (r7 & ? & H7%apply_list_enum_name & H); [|done].
  apply bind_ok_inv in H as (r8 & ? & H8%apply_enum_name & H); [|done].
  apply bind_ok_inv in H as (r9 & ? & H9%apply_list_enum_name & H); [|done].
  injection H as <- <-. simpl in *. congruence.
Qed.

(** Witness of C3's theorem: the first row of the example. *)
Lemma parse_row_business_name_witness :
  ∃ r, _parse_row (U := Standin.utils)
         (Standin.example_row "Acme" "Tutoring" "Math" "555-1212")
         Standin.example_session
       = (Ok r, Standin.example_session)
       ∧ businessName r = PyStr "Acme".
Proof.
  assert (∃ r, _parse_row (U := Standin.utils)
                 (Standin.example_row "Acme" "Tutoring" "Math" "555-1212")
                 Standin.example_session
               = (Ok r, Standin.example_session)) as [r Hr].
  { eexists. vm_compute. reflexivity. }
  exists r. split; [exact Hr|].
  by apply (parse_row_business_name (U := Standin.utils) _ _ _ _ Hr).
Defined.

(** C3, as the specification states it, fails: a row whose
    [businessName] cell is present and empty is accepted, and its record
    has the empty string as name. *)
Lemma parse_row_accepts_empty_name :
  ∃ r, _parse_row (U := Standin.utils)
         (Standin.example_row EmptyString "Tutoring" "Math" EmptyString)
         Standin.example_session
       = (Ok r, Standin.example_session)
       ∧ businessName r = PyStr EmptyString.
Proof. eexists. split; [vm_compute; reflexivity|reflexivity]. Qed.

(** ** Parsing a file *)

Lemma with_records_nil st : with_records [] st = st.
Proof. destruct st. unfold with_records. simpl. by rewrite app_nil_r. Qed.

Lemma with_records_cons r rs st :
  with_records (r :: rs) st = with_records rs (resources_append r st).
Proof. unfold with_records, resources_append. simpl. by rewrite <- app_assoc. Qed.

Lemma same_vocabulary_with_records rs st : same_vocabulary st (with_records rs st).
Proof. by split. Qed.

Lemma same_vocabulary_trans st1 st2 st3 :
  same_vocabulary st1 st2 → same_vocabulary st2 st3 → same_vocabulary st1 st3.
Proof. intros [??] [??]. split; congruence. Qed.

(** A loop over rows that are all accepted appends one record per row,
    counts them, and does the same in every session with the same
    vocabulary. *)
Lemma parse_rows_ok {U : Utils} (rows : list Row) (acc : Z) st n st' :
  for_fold rows acc parse_row_step st = (Ok n, st') →
  ∃ records,
    length records = length rows
    ∧ n = acc + Z.of_nat (length rows)
    ∧ st' = with_records records st
    ∧ ∀ st2, same_vocabulary st st2 →
        for_fold rows acc parse_row_step st2 = (Ok n, with_records records st2).
Proof.
  revert acc st. induction rows as [|row rows IH]; intros acc st; simpl.
  - intros [= <- <-]. exists []. rewrite with_records_nil.
    repeat split; [lia|]. intros st2 _. by rewrite with_records_nil.
  - intros (k & st1 & Hstep & Hrest)%bind_ok_inv.
    unfold parse_row_step in Hstep.
    apply bind_ok_inv in Hstep as (r & st0 & Hrow & Happ).
    apply parse_row_ok in Hrow as (-> & _ & Hany).
    injection Happ as <- <-.
    apply IH in Hrest as (records & Hlen & -> & -> & Hany').
    exists (r :: records). rewrite with_records_cons.
    repeat split; [simpl; lia|lia|].
    intros st2 Hsame. unfold bind at 1. unfold parse_row_step at 1.
    rewrite (bind_ok _ _ _ _ _ (Hany st2 Hsame)). simpl.
    rewrite with_records_cons. apply Hany'.
    destruct Hsame. by split.
Qed.


Lemma parse_csv_unfold {U : Utils} {Sch : Schema} {Sys : System}
    fp header rows st :
  read_csv fp = Ok (mkCsvFile (Some header) rows) →
  invalid_fields header = [] →
  _parse_csv fp st = parse_rows rows st.
Proof.
  intros Hread Hheader. unfold _parse_csv. rewrite Hread.
  unfold bind at 1 2. simpl. unfold bind at 1.
  rewrite validate_column_names_eq, decide_True by done. reflexivity.
Qed.

(** A file that parses without error has a header, one record per row is
    appended for it, and it parses the same way in every session with the
    same vocabulary. *)
Lemma parse_csv_ok {U : Utils} {Sch : Schema} {Sys : System} fp st n st' :
  _parse_csv fp st = (Ok n, st') →
  ∃ records,
    n = Z.of_nat (length records)
    ∧ st' = with_records records st
    ∧ ∀ st2, same_vocabulary st st2 →
        _parse_csv fp st2 = (Ok n, with_records records st2).
Proof.
  unfold _parse_csv. destruct (read_csv fp) as [[header rows]|e] eqn:Hread;
    [|done].
  unfold bind at 1 2. simpl. destruct header as [header|]; [|done].
  simpl. unfold bind at 1. rewrite validate_column_names_eq.
  destruct (decide (invalid_fields header = [])) as [E|E]; [|done].
  intros (records & Hlen & -> & -> & Hany)%parse_rows_ok.
  exists records. repeat split; [lia|].
  intros st2 Hsame. unfold bind at 1 2. simpl. unfold bind at 1.
  rewrite validate_column_names_eq, decide_True by done.
  by apply Hany.
Qed.





(** ** Parsing all files *)

Lemma sum_cons (x : Z) (l : list Z) : sum (x :: l) = x + sum l.
Proof. reflexivity. Qed.

Lemma sum_Permutation (l1 l2 : list Z) : l1 ≡ₚ l2 → sum l1 = sum l2.
Proof. unfold sum. induction 1; simpl; lia. Qed.

Lemma with_records_app rs1 rs2 st :
  with_records rs2 (with_records rs1 st) = with_records (rs1 ++ rs2) st.
Proof. unfold with_records. simpl. by rewrite <- app_assoc. Qed.

(** Files that each parse without error in the session also do so one
    after the other, in any order: every task returns its own count, and
    the records appended are as many as the counts add up to. *)
Lemma gather_parse_ok {U : Utils} {Sch : Schema} {Sys : System}
    (fps : list string) (counts : string → Z) (st : CSVParser) :
  (∀ fp, fp ∈ fps → ∃ st', _parse_csv fp st = (Ok (counts fp), st')) →
  ∀ st2, same_vocabulary st st2 →
    ∃ records,
      gather (_parse_csv <$> fps) st2
      = (Ok (counts <$> fps), with_records records st2)
      ∧ Z.of_nat (length records) = sum (counts <$> fps).
Proof.
  induction fps as [|fp fps IH]; intros Hall st2 Hsame.
  - exists []. by rewrite with_records_nil.
  - destruct (Hall fp) as [st' Hfp]; [by left|].
    apply parse_csv_ok in Hfp as (recs & Hn & _ & Hany).
    destruct (IH (λ f Hf, Hall f (list_elem_of_further _ _ _ Hf))
                 (with_records recs st2)) as (records & Hg & Hlen).
    { eapply same_vocabulary_trans; [exact Hsame|].
      apply same_vocabulary_with_records. }
    exists (recs ++ records). split.
    + rewrite !fmap_cons, <- with_records_app.
      by apply (gather_cons_ok _ _ _ _ _ _ _ (Hany st2 Hsame) Hg).
    + rewrite length_app, fmap_cons, sum_cons. lia.
Qed.

(** C6: when every file of the session parses without error,
    [_parse_all] returns the sum of the counts the files' parses return,
    and the record collection has grown by exactly that many records. The
    same holds for every order in which the tasks may be created and
    run. *)
Theorem parse_all_counts {U : Utils} {Sch : Schema} {Sys : System}
    (st : CSVParser) (counts : string → Z) :
  (∀ fp, fp ∈ files st → ∃ st', _parse_csv fp st = (Ok (counts fp), st')) →
  let total := sum (counts <$> elements (files st)) in
  (∀ order, order ≡ₚ elements (files st) →
     ∃ st', gather (_parse_csv <$> order) st = (Ok (counts <$> order), st')
            ∧ sum (counts <$> order) = total
            ∧ Z.of_nat (length (resources st'))
              = Z.of_nat (length (resources st)) + total)
  ∧ ∃ st', _parse_all st = (Ok total, st')
           ∧ Z.of_nat (length (resources st'))
             = Z.of_nat (length (resources st)) + total.
Proof.
  intros Hall total.
  assert (∀ order, order ≡ₚ elements (files st) →
     ∃ st', gather (_parse_csv <$> order) st = (Ok (counts <$> order), st')
            ∧ sum (counts <$> order) = total
            ∧ Z.of_nat (length (resources st'))
              = Z.of_nat (length (resources st)) + total) as Horder.
  { intros order Hperm.
    destruct (gather_parse_ok order counts st) with (st2 := st)
      as (records & Hg & Hlen).
    - intros fp Hfp. apply Hall. rewrite Hperm in Hfp.
      by apply elem_of_elements.
    - by split.
    - assert (sum (counts <$> order) = total) as Hsum.
      { apply sum_Permutation. by rewrite Hperm. }
      exists (with_records records st). repeat split; [done..|].
      simpl. rewrite length_app. lia. }
  split; [exact Horder|].
  destruct (Horder (set_order (files st)) (set_order_perm _))
    as (st' & Hg & Hsum & Hlen).
  exists st'. split; [|exact Hlen].
  unfold _parse_all, bind, get. rewrite Hg. unfold ret. by rewrite Hsum.
Qed.

(** Witness of C6's theorem: two files, of two rows and of one row. *)
Lemma parse_all_counts_witness :
  ∃ st', _parse_all (U := Standin.utils) (Sch := Standin.schema)
           (Sys := Standin.two_files) Standin.two_files_session
         = (Ok 3, st')
         ∧ length (resources st') = 3%nat.
Proof.
  destruct (parse_all_counts (U := Standin.utils) (Sch := Standin.schema)
              (Sys := Standin.two_files) Standin.two_files_session
              Standin.two_files_counts) as [_ (st' & Hall & Hlen)].
  - intros fp Hfp.
    assert (fp = "a.csv" ∨ fp = "b.csv") as [-> | ->].
    { unfold Standin.two_files_session, files_add in Hfp. simpl in Hfp.
      rewrite !elem_of_union, !elem_of_singleton in Hfp.
      destruct Hfp as [?|[?|Hfp]]; [by left|by right|].
      by apply elem_of_empty in Hfp. }
    + eexists. vm_compute. reflexivity.
    + eexists. vm_compute. reflexivity.
  - exists st'. split; [exact Hall|].
    change (length (resources Standin.two_files_session)) with 0%nat in Hlen.
    assert (sum (Standin.two_files_counts
                 <$> elements (files Standin.two_files_session)) = 3) as E
      by (vm_compute; reflexivity).
    rewrite E in Hlen. lia.
Defined.

(** ** The upload sink *)

Section UploadFacts.

Context {U : Utils} {Sys : System} {E : Endpoint}.

Lemma rollback_ids_cons_ok x xs i :
  succeeded x → response_id x.2 = Ok i →
  rollback_ids (x :: xs) = i :: rollback_ids xs.
Proof. intros Hs Hi. simpl. by rewrite decide_True, Hi. Qed.

Lemma rollback_ids_cons_failed x xs :
  ¬ succeeded x → rollback_ids (x :: xs) = rollback_ids xs.
Proof. intros Hs. simpl. by rewrite decide_False. Qed.

Lemma failure_msgs_cons_ok x xs :
  succeeded x → failure_msgs (x :: xs) = failure_msgs xs.
Proof.
  intros Hs. unfold failure_msgs. rewrite filter_cons_False; [done|].
  by intros Hn.
Qed.

Lemma failure_msgs_cons_failed x xs :
  ¬ succeeded x → failure_msgs (x :: xs) = failure_msg x :: failure_msgs xs.
Proof. intros Hs. unfold failure_msgs. by rewrite filter_cons_True. Qed.

Lemma answers_cons r rs srv :
  answers (r :: rs) srv = (r, (post r srv).1) :: answers rs (post r srv).2.
Proof. simpl. by destruct (post r srv). Qed.

Lemma upload_one_ok (l : Uploader.Locals) r (w : Uploader.World) i :
  status (post r (Uploader.server w)).1 = 200 →
  response_id (post r (Uploader.server w)).1 = Ok i →
  Uploader.upload_one l r w
  = (Ok (Uploader.mkLocals (Uploader.n_uploaded l + 1) (Uploader.err l)
           (Uploader.uploaded l ++ [i])),
     Uploader.mkWorld (Uploader.err_log w) (post r (Uploader.server w)).2
       (Uploader.fs w)).
Proof.
  intros H200 Hid. unfold Uploader.upload_one, Uploader.session_post, bind.
  unfold response_id in Hid.
  destruct (post r (Uploader.server w)) as [resp srv']. simpl in *.
  rewrite decide_True by done. unfold lift.
  destruct (subscript (data resp) "data") as [d|]; [|done].
  by rewrite Hid.
Qed.

Lemma upload_one_failed (l : Uploader.Locals) r (w : Uploader.World) :
  status (post r (Uploader.server w)).1 ≠ 200 →
  Uploader.upload_one l r w
  = (Ok (Uploader.mkLocals (Uploader.n_uploaded l) (Uploader.err l + 1)
           (Uploader.uploaded l)),
     Uploader.mkWorld
       (Uploader.err_log w
        ++ [failure_msg (r, (post r (Uploader.server w)).1)])
       (post r (Uploader.server w)).2 (Uploader.fs w)).
Proof.
  intros H200. unfold Uploader.upload_one, Uploader.session_post, bind.
  destruct (post r (Uploader.server w)) as [resp srv']. simpl in *.
  by rewrite decide_False by done.
Qed.

(** The loop of [upload]: every record is sent; a record that succeeds
    is counted and its id kept, a record that fails is counted and
    logged, and the loop goes on to the end of the list either way. *)
Lemma upload_loop (resources : list ResourceDto) (l : Uploader.Locals)
    (w : Uploader.World) :
  let xs := answers resources (Uploader.server w) in
  Forall well_formed xs →
  for_fold resources l Uploader.upload_one w
  = (Ok (Uploader.mkLocals
           (Uploader.n_uploaded l + Z.of_nat (length (rollback_ids xs)))
           (Uploader.err l + Z.of_nat (length (failure_msgs xs)))
           (Uploader.uploaded l ++ rollback_ids xs)),
     Uploader.mkWorld (Uploader.err_log w ++ failure_msgs xs)
       (server_after resources (Uploader.server w)) (Uploader.fs w)).
Proof.
  revert l w. induction resources as [|r rs IH]; intros l w xs Hwf; subst xs.
  - simpl. unfold ret. destruct l, w. simpl.
    by rewrite !Z.add_0_r, !app_nil_r.
  - rewrite answers_cons in *.
    apply Forall_cons in Hwf as [Hwf1 Hwf].
    change (for_fold (r :: rs) l Uploader.upload_one w)
      with (bind (Uploader.upload_one l r)
              (λ acc', for_fold rs acc' Uploader.upload_one) w).
    change (server_after (r :: rs) (Uploader.server w))
      with (server_after rs (post r (Uploader.server w)).2).
    set (x := (r, (post r (Uploader.server w)).1)) in *.
    destruct (decide (succeeded x)) as [Hs|Hs].
    + specialize (Hwf1 Hs).
      destruct (response_id x.2) as [i|] eqn:Hi; [|done].
      rewrite (bind_ok _ _ _ _ _ (upload_one_ok l r w i Hs Hi)).
      rewrite IH by done.
      rewrite (rollback_ids_cons_ok x _ i), failure_msgs_cons_ok by done.
      simpl. rewrite <- app_assoc. simpl. do 3 f_equal. lia.
    + rewrite (bind_ok _ _ _ _ _ (upload_one_failed l r w Hs)).
      rewrite IH by done.
      rewrite rollback_ids_cons_failed, failure_msgs_cons_failed by done.
      simpl. rewrite <- app_assoc. simpl. do 3 f_equal. lia.
Qed.

















End UploadFacts.




(** * Further facts *)

(** ** File discovery over a directory tree *)

(** Induction over a directory tree. *)
Lemma node_tree_ind (P : node → Prop) :
  P File → P Other → P Absent →
  (∀ entries, Forall (λ e, P e.2) entries → P (Dir entries)) →
  ∀ n, P n.
Proof.
  intros HF HO HA HD. fix IH 1. intros [|entries| |].
  - exact HF.
  - apply HD. induction entries as [|[p c] es IHes]; constructor.
    + apply IH.
    + exact IHes.
  - exact HO.
  - exact HA.
Qed.

Lemma discovered_nil st : discovered [] [] st = st.
Proof. destruct st. unfold discovered. simpl. by rewrite app_nil_r. Qed.

Lemma discovered_app c1 m1 c2 m2 st :
  discovered c2 m2 (discovered c1 m1 st) = discovered (c1 ++ c2) (m1 ++ m2) st.
Proof.
  unfold discovered. simpl.
  by rewrite foldl_app, fmap_app, app_assoc.
Qed.

Lemma process_fp_eq (n : node) :
  ∀ fp st,
    _process_fp fp n st
    = (Ok (Z.of_nat (length (absent_paths fp n))),
       discovered (csv_paths fp n) (absent_paths fp n) st).
Proof.
  induction n as [| | |entries IH] using node_tree_ind; intros fp st.
  - simpl. destruct (PyStr.endswith fp ".csv"); simpl.
    + unfold bind, modify, ret, discovered, files_add. simpl.
      by rewrite app_nil_r.
    + by rewrite discovered_nil.
  - simpl. rewrite andb_false_r. by rewrite discovered_nil.
  - simpl. rewrite andb_false_r. reflexivity.
  - simpl. rewrite andb_false_r.
    match goal with |- ?f entries 0 st = _ => set (listing := f) end.
    assert (∀ es nfiles st0,
      Forall (λ e : string * node, ∀ fp st,
                _process_fp fp e.2 st
                = (Ok (Z.of_nat (length (absent_paths fp e.2))),
                   discovered (csv_paths fp e.2) (absent_paths fp e.2) st))
             es →
      listing es nfiles st0
      = (Ok (nfiles + Z.of_nat
               (length (flat_map
                          (λ e, absent_paths (fp +:+ "/" +:+ e.1) e.2) es))),
         discovered
           (flat_map (λ e, csv_paths (fp +:+ "/" +:+ e.1) e.2) es)
           (flat_map (λ e, absent_paths (fp +:+ "/" +:+ e.1) e.2) es) st0))
      as Hloop.
    { induction es as [|[p c] es IHes]; intros nfiles st0 Hall.
      - simpl. unfold ret. by rewrite Z.add_0_r, discovered_nil.
      - apply Forall_cons in Hall as [Hc Hes].
        unfold listing. simpl. fold listing.
        rewrite (bind_ok _ _ _ _ _ (Hc _ _)).
        rewrite IHes by done. rewrite discovered_app, length_app.
        rewrite Nat2Z.inj_add, Z.add_assoc. reflexivity. }
    rewrite Hloop by done. by rewrite Z.add_0_l.
Qed.

Lemma elem_of_added (p : string) (l : list string) (X : gset string) :
  p ∈ foldl (λ X fp, {[fp]} ∪ X) X l ↔ p ∈ X ∨ p ∈ l.
Proof.
  revert X. induction l as [|x l IH]; intros X; simpl.
  - rewrite elem_of_nil. tauto.
  - rewrite IH, elem_of_union, elem_of_singleton, elem_of_cons. tauto.
Qed.

Lemma csv_paths_end_in_csv (n : node) :
  ∀ fp, Forall (λ p, PyStr.endswith p ".csv" = true) (csv_paths fp n).
Proof.
  induction n as [| | |entries IH] using node_tree_ind; intros fp; simpl.
  - destruct (PyStr.endswith fp ".csv") eqn:E; simpl; by repeat constructor.
  - rewrite andb_false_r. constructor.
  - rewrite andb_false_r. constructor.
  - rewrite andb_false_r.
    induction IH as [|[p c] es Hc Hes IHes]; simpl; [constructor|].
    apply Forall_app. split; [apply Hc|apply IHes].
Qed.

(** X1: [_process_fp] never raises, on any directory tree. It returns
    the number of paths of the tree that do not exist, and that is the
    number of entries it appends to the error log, one per such path in
    listing order. The file set gains exactly the regular files of the
    tree whose path ends in [.csv] and loses nothing; the resources, the
    flags and the vocabulary are untouched. *)
Theorem process_fp_tree (fp : string) (n : node) (st : CSVParser) :
  ∃ st',
    _process_fp fp n st = (Ok (Z.of_nat (length (absent_paths fp n))), st')
    ∧ err_log st' = err_log st ++ (path_msg <$> absent_paths fp n)
    ∧ (∀ p, p ∈ files st' ↔ p ∈ files st ∨ p ∈ csv_paths fp n)
    ∧ resources st' = resources st
    ∧ (verbose_flag st', post_flag st', rollback_flag st')
      = (verbose_flag st, post_flag st, rollback_flag st)
    ∧ (categories st', subcategories st') = (categories st, subcategories st).
Proof.
  eexists. split; [apply process_fp_eq|]. simpl.
  split; [done|]. split; [|done]. intros p. apply elem_of_added.
Qed.

(** X2: [_process_fp] keeps the invariant that every path of the file
    set ends in [.csv]. *)
Theorem process_fp_keeps_csv (fp : string) (n : node) (st : CSVParser) r st' :
  all_csv (files st) →
  _process_fp fp n st = (r, st') →
  all_csv (files st').
Proof.
  intros Hinv. rewrite process_fp_eq. intros [= _ <-] p. simpl.
  rewrite elem_of_added. intros [Hp|Hp]; [by apply Hinv|].
  pose proof (csv_paths_end_in_csv n fp) as Hall.
  rewrite Forall_forall in Hall. by apply Hall.
Qed.

(** Witness of X2's theorem: a directory tree scanned from the fresh
    session. *)
Lemma process_fp_keeps_csv_witness :
  (_process_fp "data" Example.data_dir CSVParser_init).1 = Ok 1
  ∧ all_csv (files (_process_fp "data" Example.data_dir CSVParser_init).2).
Proof.
  split; [reflexivity|].
  apply (process_fp_keeps_csv "data" Example.data_dir CSVParser_init
           (_process_fp "data" Example.data_dir CSVParser_init).1).
  - intros p Hp. by apply elem_of_empty in Hp.
  - by destruct (_process_fp "data" Example.data_dir CSVParser_init).
Defined.

(** ** Flags and arguments *)

Lemma set_flag_ok {Sys : System} (flag : string) (st : CSVParser) :
  _set_flag flag st = (Ok tt, (_set_flag flag st).2).
Proof. unfold _set_flag. by repeat case_decide. Qed.

Lemma set_flag_rest {Sys : System} (flag : string) (st : CSVParser) :
  (files (_set_flag flag st).2, resources (_set_flag flag st).2,
   categories (_set_flag flag st).2, subcategories (_set_flag flag st).2,
   err_log (_set_flag flag st).2)
  = (files st, resources st, categories st, subcategories st, err_log st).
Proof. unfold _set_flag. by repeat case_decide. Qed.

Lemma missing_paths_cons {Sys : System} (s : string) (args : list string) :
  missing_paths (s :: args)
  = (if PyStr.startswith s "-" then []
     else absent_paths s (lookup_path s)) ++ missing_paths args.
Proof.
  unfold missing_paths, path_args. rewrite filter_cons.
  destruct (PyStr.startswith s "-"); [by rewrite decide_False|].
  by rewrite decide_True.
Qed.

Lemma found_csvs_cons {Sys : System} (s : string) (args : list string) :
  found_csvs (s :: args)
  = (if PyStr.startswith s "-" then []
     else csv_paths s (lookup_path s)) ++ found_csvs args.
Proof.
  unfold found_csvs, path_args. rewrite filter_cons.
  destruct (PyStr.startswith s "-"); [by rewrite decide_False|].
  by rewrite decide_True.
Qed.

(** The loop over the arguments never raises; it counts the missing
    paths of all path arguments. *)
Lemma scan_args_eq {Sys : System} (args : list string) (acc : Z)
    (st : CSVParser) :
  for_fold args acc
    (λ n_failed s,
       if PyStr.startswith s "-" then _set_flag s ;;; ret n_failed
       else k <- _process_fp s (lookup_path s) ;; ret (n_failed + k)) st
  = (Ok (acc + Z.of_nat (length (missing_paths args))),
     foldl after_arg st args).
Proof.
  revert acc st. induction args as [|s args IH]; intros acc st.
  - simpl. unfold ret. by rewrite Z.add_0_r.
  - rewrite missing_paths_cons. simpl. unfold bind at 1.
    unfold after_arg at 2.
    destruct (PyStr.startswith s "-").
    + rewrite (bind_ok _ _ _ _ _ (set_flag_ok s st)). unfold ret at 1.
      by rewrite IH.
    + rewrite (bind_ok _ _ _ _ _ (process_fp_eq _ s st)). unfold ret at 1.
      rewrite IH, length_app. f_equal. f_equal. lia.
Qed.

Lemma after_args_state {Sys : System} (args : list string) (st : CSVParser) :
  err_log (foldl after_arg st args)
  = err_log st ++ (path_msg <$> missing_paths args)
  ∧ (∀ p, p ∈ files (foldl after_arg st args)
          ↔ p ∈ files st ∨ p ∈ found_csvs args)
  ∧ resources (foldl after_arg st args) = resources st
  ∧ categories (foldl after_arg st args) = categories st
  ∧ subcategories (foldl after_arg st args) = subcategories st.
Proof.
  revert st. induction args as [|s args IH]; intros st.
  - simpl. rewrite app_nil_r. repeat split; try done.
    + by left.
    + intros [?|Hp]; [done|]. by apply elem_of_nil in Hp.
  - simpl. destruct (IH (after_arg st s)) as (Hlog & Hfiles & Hres & Hc & Hs).
    rewrite Hlog, Hres, Hc, Hs, missing_paths_cons, found_csvs_cons.
    unfold after_arg in *. destruct (PyStr.startswith s "-").
    + pose proof (set_flag_rest s st) as Hsame.
      injection Hsame as Hf Hr Hc1 Hs1 Hl.
      rewrite Hl, Hr, Hc1, Hs1. repeat split; try done.
      * intros Hp. apply Hfiles in Hp. by rewrite Hf in Hp.
      * intros Hp. apply Hfiles. by rewrite Hf.
    + simpl. rewrite fmap_app, app_assoc. repeat split; try done.
      * intros Hp. apply Hfiles in Hp. simpl in Hp.
        rewrite elem_of_added in Hp. rewrite elem_of_app. tauto.
      * intros Hp. apply Hfiles. simpl.
        rewrite elem_of_added. rewrite elem_of_app in Hp. tauto.
Qed.

Lemma spelled_one (f a : string) : bool_decide (f ∈ [a]) = bool_decide (f = a).
Proof. apply bool_decide_ext. by rewrite list_elem_of_singleton. Qed.

Lemma spelled_two (f a b : string) :
  bool_decide (f ∈ [a; b]) = bool_decide (f = a ∨ f = b).
Proof.
  apply bool_decide_ext. rewrite !elem_of_cons, elem_of_nil. tauto.
Qed.

(** The flags after one call of [_set_flag]. *)
Lemma set_flag_flags {Sys : System} (s : string) (st : CSVParser) :
  verbose_flag (_set_flag s st).2
  = verbose_flag st || bool_decide (str_lower s ∈ ["-v"; "--verbose"])
  ∧ post_flag (_set_flag s st).2
    = post_flag st || bool_decide (str_lower s ∈ ["--upload"])
  ∧ rollback_flag (_set_flag s st).2
    = rollback_flag st || bool_decide (str_lower s ∈ ["-r"; "--rollback"]).
Proof.
  unfold _set_flag. rewrite !spelled_two, spelled_one.
  generalize (str_lower s). intros f. unfold bool_decide.
  repeat case_decide; simpl;
    rewrite ?orb_true_r, ?orb_false_r; try done;
    exfalso; intuition congruence.
Qed.

Lemma after_arg_flags {Sys : System} (s : string) (st : CSVParser) names
    (proj : CSVParser → bool) :
  (proj = verbose_flag ∧ names = ["-v"; "--verbose"])
  ∨ (proj = post_flag ∧ names = ["--upload"])
  ∨ (proj = rollback_flag ∧ names = ["-r"; "--rollback"]) →
  proj (after_arg st s) = proj st || flag_given names [s].
Proof.
  intros Hwhich. unfold after_arg, flag_given. simpl. rewrite orb_false_r.
  destruct (PyStr.startswith s "-"); simpl.
  - destruct (set_flag_flags s st) as (Hv & Hp & Hr).
    by destruct Hwhich as [[-> ->]|[[-> ->]|[-> ->]]].
  - rewrite orb_false_r.
    by destruct Hwhich as [[-> ->]|[[-> ->]|[-> ->]]].
Qed.

Lemma after_args_flags {Sys : System} (args : list string) (st : CSVParser)
    names (proj : CSVParser → bool) :
  (proj = verbose_flag ∧ names = ["-v"; "--verbose"])
  ∨ (proj = post_flag ∧ names = ["--upload"])
  ∨ (proj = rollback_flag ∧ names = ["-r"; "--rollback"]) →
  proj (foldl after_arg st args) = proj st || flag_given names args.
Proof.
  intros Hwhich. revert st. induction args as [|s args IH]; intros st.
  - simpl. by rewrite orb_false_r.
  - simpl foldl. rewrite IH, (after_arg_flags s st names proj Hwhich).
    unfold flag_given. simpl. rewrite orb_false_r. by rewrite orb_assoc.
Qed.

Lemma process_args_state {U : Utils} {Sys : System} (argv : list string)
    (st : CSVParser) :
  (_process_args argv st).2 = foldl after_arg st (drop 1 argv).
Proof.
  unfold _process_args. case_decide as Hlen.
  - destruct argv as [|a [|b argv]]; simpl in *; [done|done|lia].
  - unfold scan_args. rewrite (bind_ok _ _ _ _ _ (scan_args_eq _ 0 st)).
    by case_decide.
Qed.

(** X3: flags may stand anywhere among the arguments, before or after
    the paths, any number of times, and in any spelling that
    [str.lower] maps to their name. After [_process_args], whether it
    returns or raises, each of the three flags is on exactly when it was
    on before or one of the arguments after the program name starts with
    a dash and lowers to one of its names: a flag is never turned off,
    and a dash argument that spells no flag sets none. For an argument of
    ASCII characters the spelling is compared with the letters [A] to [Z]
    lowered. *)
Theorem process_args_flags {U : Utils} {Sys : System}
    (argv : list string) (st : CSVParser) :
  let st' := (_process_args argv st).2 in
  let args := drop 1 argv in
  verbose_flag st' = verbose_flag st || flag_given ["-v"; "--verbose"] args
  ∧ post_flag st' = post_flag st || flag_given ["--upload"] args
  ∧ rollback_flag st'
    = rollback_flag st || flag_given ["-r"; "--rollback"] args
  ∧ (∀ names s,
       PyStr.is_ascii s = true →
       flag_given names [s]
       = PyStr.startswith s "-"
         && bool_decide (PyStr.ascii_lower s ∈ names)).
Proof.
  intros st' args. unfold st', args. rewrite process_args_state.
  split; [|split; [|split]].
  - apply after_args_flags. by left.
  - apply after_args_flags. right. by left.
  - apply after_args_flags. right. by right.
  - intros names s Hs. unfold flag_given. simpl.
    by rewrite orb_false_r, (str_lower_ascii s Hs).
Qed.

(** X4: [_process_args] raises the usage exception, and does nothing
    else, when there is no argument after the program name. Otherwise it
    goes through all the arguments before it decides: arguments that start
    with a dash are never looked up as paths; every [.csv] file found at or
    under a path argument is in the file set afterwards, and every path of
    the set that is new ends in [.csv]; every path that does not exist is
    logged; and it raises [FileNotFoundError], built from the whole log,
    exactly when there was such a path. *)
Theorem process_args_outcome {U : Utils} {Sys : System}
    (argv : list string) (st : CSVParser) :
  ((length argv < 2)%nat →
   _process_args argv st = (Raise (PyExn Exception usage), st))
  ∧ ((2 ≤ length argv)%nat →
     ∃ st',
       _process_args argv st
       = (match missing_paths (drop 1 argv) with
          | [] => Ok tt
          | _ :: _ => Raise (paths_not_found (err_log st'))
          end, st')
       ∧ err_log st'
         = err_log st ++ (path_msg <$> missing_paths (drop 1 argv))
       ∧ (∀ p, p ∈ files st'
               ↔ p ∈ files st ∨ p ∈ found_csvs (drop 1 argv))
       ∧ Forall (λ p, PyStr.endswith p ".csv" = true)
                (found_csvs (drop 1 argv))
       ∧ resources st' = resources st
       ∧ categories st' = categories st
       ∧ subcategories st' = subcategories st).
Proof.
  split.
  - intros Hlen. unfold _process_args. rewrite decide_True by lia. done.
  - intros Hlen. exists (foldl after_arg st (drop 1 argv)).
    destruct (after_args_state (drop 1 argv) st)
      as (Hlog & Hfiles & Hres & Hc & Hs).
    split; [|repeat split; try done].
    + unfold _process_args. rewrite decide_False by lia.
      unfold scan_args. rewrite (bind_ok _ _ _ _ _ (scan_args_eq _ 0 st)).
      destruct (missing_paths (drop 1 argv)) as [|m ms].
      * reflexivity.
      * rewrite decide_True by (simpl; lia). reflexivity.
    + apply Hfiles.
    + apply Hfiles.
    + unfold found_csvs. apply Forall_flat_map, Forall_forall.
      intros s _. apply csv_paths_end_in_csv.
Qed.

(** Witness of X4's theorem: a flag, a directory with a broken link in
    it, and a CSV file. The broken link is reported, after the file that
    follows the directory was added. *)
Lemma process_args_outcome_witness :
  ∃ st',
    _process_args (U := Standin.utils) (Sys := Example.data_system)
      ["main.py"; "-v"; "data"; "x.csv"] CSVParser_init
    = (Raise (paths_not_found (U := Standin.utils) [path_msg "data/gone"]),
       st')
    ∧ "x.csv" ∈ files st' ∧ "data/sub/b.csv" ∈ files st'.
Proof.
  destruct (process_args_outcome (U := Standin.utils)
              (Sys := Example.data_system)
              ["main.py"; "-v"; "data"; "x.csv"] CSVParser_init)
    as [_ Hscan].
  destruct Hscan as (st' & Hrun & Hlog & Hfiles & _); [simpl; lia|].
  exists st'. split; [|split].
  - rewrite Hrun, Hlog. reflexivity.
  - apply Hfiles. right. by_evaluation.
  - apply Hfiles. right. by_evaluation.
Defined.

(** ** What the row normalizer accepts, and the record it builds *)

Lemma getitem_ok_inv (row : Row) key (st : CSVParser) v st' :
  getitem row key st = (Ok v, st') → row !! key = Some v ∧ st' = st.
Proof.
  unfold getitem. destruct (row !! key); [|done]. by intros [= <- <-].
Qed.

Lemma getitem_cell (row : Row) key (st : CSVParser) :
  is_Some (row !! key) → getitem row key st = (Ok (cell row key), st).
Proof. intros [v Hv]. unfold getitem, cell. by rewrite Hv. Qed.

Lemma check_tokens_ok_inv sub parts st st' :
  check_tokens sub parts st = (Ok tt, st') →
  st' = st ∧ Forall (λ p, p ∈ vocabulary sub st) parts.
Proof.
  revert st'. induction parts as [|p ps IH]; intros st' H.
  - injection H as <-. by split.
  - unfold check_tokens in *. simpl in H. unfold bind at 1 2 in H.
    simpl in H.
    destruct (decide (p ∉ vocabulary sub st)) as [|Hin]; [done|].
    unfold ret at 1 in H. destruct (IH _ H) as [-> Hall].
    split; [done|]. constructor; [|done].
    by destruct (decide (p ∈ vocabulary sub st)).
Qed.

Lemma category_inv (c : pyval) sub st cats st' :
  _validate_category_field c sub st = (Ok cats, st') →
  st' = st ∧ cats = tokens c ∧ category_ok c sub st.
Proof.
  destruct c as [|s]; [done|].
  rewrite validate_category_field_unfold.
  intros ([] & st1 & Hcheck & [= <- <-])%bind_ok_inv.
  apply check_tokens_ok_inv in Hcheck as [-> Hall].
  repeat split. by exists s.
Qed.

Lemma category_fwd (c : pyval) sub st :
  category_ok c sub st →
  _validate_category_field c sub st = (Ok (tokens c), st).
Proof. intros (s & -> & Hall). by apply validate_category_field_ok. Qed.

Section RowSteps.

Context {U : Utils}.

Lemma simple_loop_inv (row : Row) fields r (st : CSVParser) r' st' :
  for_fold fields r
    (λ resource field,
       res <- lift (validate_field field row) ;;
       if (res : bool) then
         v <- getitem row field ;; ret (setattr_simple field v resource)
       else ret resource) st = (Ok r', st') →
  st' = st ∧ r' = foldl (simple_step row) r fields
  ∧ Forall (simple_ok row) fields.
Proof.
  revert r. induction fields as [|f fs IH]; intros r; simpl.
  - intros [= <- <-]. by repeat split.
  - intros (r1 & st1 & Hstep & Hrest)%bind_ok_inv.
    apply bind_ok_inv in Hstep as (b & st0 & Hvalid & Hset).
    unfold lift in Hvalid. injection Hvalid as Hvalid <-.
    assert (st1 = st ∧ r1 = simple_step row r f ∧ simple_ok row f)
      as (-> & -> & Hok).
    { unfold simple_step, simple_ok. rewrite Hvalid. destruct b.
      - apply bind_ok_inv in Hset as (v & ? & [Hv ->]%getitem_ok_inv & Hret).
        injection Hret as <- <-. unfold cell. rewrite Hv.
        repeat split. exists true. split; [done|]. by eexists.
      - injection Hset as <- <-. repeat split. by exists false. }
    destruct (IH _ Hrest) as (-> & -> & Hall).
    split; [done|]. split; [done|]. by constructor.
Qed.

Lemma simple_loop_fwd (row : Row) fields r (st : CSVParser) :
  Forall (simple_ok row) fields →
  for_fold fields r
    (λ resource field,
       res <- lift (validate_field field row) ;;
       if (res : bool) then
         v <- getitem row field ;; ret (setattr_simple field v resource)
       else ret resource) st
  = (Ok (foldl (simple_step row) r fields), st).
Proof.
  intros Hall. revert r. induction Hall as [|f fs (b & Hb & Hcell) _ IH];
    intros r; simpl; [done|].
  unfold bind at 1 2, lift at 1. rewrite Hb.
  unfold simple_step at 2. rewrite Hb. destruct b.
  - rewrite (bind_ok _ _ _ _ _ (getitem_cell row f st (Hcell eq_refl))).
    unfold ret at 1. apply IH.
  - unfold ret at 1. apply IH.
Qed.

Lemma apply_enum_inv enum field (row : Row) set r (st : CSVParser) r' st' :
  apply_enum enum field row set r st = (Ok r', st') →
  st' = st ∧ r' = enum_step (validate_enum_field enum field row) set r
  ∧ is_ok (validate_enum_field enum field row) = true.
Proof.
  intros (res & ? & Hres & H)%bind_ok_inv. unfold lift in Hres.
  injection Hres as Hres <-. unfold enum_step. rewrite Hres.
  by destruct res; injection H as <- <-.
Qed.

Lemma apply_enum_fwd enum field (row : Row) set r (st : CSVParser) :
  is_ok (validate_enum_field enum field row) = true →
  apply_enum enum field row set r st
  = (Ok (enum_step (validate_enum_field enum field row) set r), st).
Proof.
  unfold apply_enum, enum_step, bind, lift.
  by destruct (validate_enum_field enum field row) as [[v|]|].
Qed.

Lemma apply_list_enum_inv enum field (row : Row) set r (st : CSVParser)
    r' st' :
  apply_list_enum enum field row set r st = (Ok r', st') →
  st' = st
  ∧ r' = list_enum_step (validate_list_enum_field enum field row) set r
  ∧ is_ok (validate_list_enum_field enum field row) = true.
Proof.
  intros (res & ? & Hres & H)%bind_ok_inv. unfold lift in Hres.
  injection Hres as Hres <-. unfold list_enum_step. rewrite Hres.
  by destruct res as [[|v vs]|]; injection H as <- <-.
Qed.

Lemma apply_list_enum_fwd enum field (row : Row) set r (st : CSVParser) :
  is_ok (validate_list_enum_field enum field row) = true →
  apply_list_enum enum field row set r st
  = (Ok (list_enum_step (validate_list_enum_field enum field row) set r), st).
Proof.
  unfold apply_list_enum, list_enum_step, bind, lift.
  by destruct (validate_list_enum_field enum field row) as [[[|v vs]|]|].
Qed.

End RowSteps.

Lemma required_present (row : Row) :
  missing_fields row = [] →
  is_Some (row !! "businessName") ∧ is_Some (row !! "category")
  ∧ is_Some (row !! "subCategory").
Proof.
  intros Hn%missing_fields_nil.
  destruct (row !! "businessName"), (row !! "category"),
    (row !! "subCategory"); try (exfalso; tauto).
  by repeat split.
Qed.

Lemma grade_inv {U : Utils} (row : Row) r (st : CSVParser) r' st' :
  match row !! "GRADELEVEL" with
  | Some raw =>
      res <- lift (parse_grade raw) ;;
      match res with
      | Some g => ret (set_grades g r)
      | None => ret r
      end
  | None => ret r
  end st = (Ok r', st') →
  st' = st ∧ r' = grade_step row r ∧ grade_ok row.
Proof.
  unfold grade_step, grade_ok. destruct (row !! "GRADELEVEL") as [raw|].
  - intros (res & ? & Hres & H)%bind_ok_inv. unfold lift in Hres.
    injection Hres as Hres <-. rewrite Hres.
    assert (st' = st ∧ r' = match res with Some g => set_grades g r | None => r end)
      as [-> ->] by (by destruct res; injection H as <- <-).
    repeat split. intros raw' [= <-]. by rewrite Hres.
  - intros [= <- <-]. by repeat split.
Qed.

Lemma grade_fwd {U : Utils} (row : Row) r (st : CSVParser) :
  grade_ok row →
  match row !! "GRADELEVEL" with
  | Some raw =>
      res <- lift (parse_grade raw) ;;
      match res with
      | Some g => ret (set_grades g r)
      | None => ret r
      end
  | None => ret r
  end st = (Ok (grade_step row r), st).
Proof.
  unfold grade_step, grade_ok. destruct (row !! "GRADELEVEL") as [raw|];
    [|done].
  intros Hok. specialize (Hok raw eq_refl). unfold bind, lift.
  by destruct (parse_grade raw) as [[g|]|].
Qed.

(** An accepted row passes every step, its record is the one the steps
    build, and the session is as before. *)
Lemma parse_row_inv {U : Utils} (row : Row) (st : CSVParser) r st' :
  _parse_row row st = (Ok r, st') →
  acceptable row st ∧ r = record_of row ∧ st' = st.
Proof.
  intros H. unfold _parse_row in H.
  apply bind_ok_inv in H as ([] & st1 & Hreq & H).
  rewrite validate_required_fields_eq in Hreq.
  destruct (decide (missing_fields row = [])) as [Hmiss|]; [|done].
  injection Hreq as <-.
  apply bind_ok_inv in H as (name & ? & [Hname ->]%getitem_ok_inv & H).
  apply bind_ok_inv in H as (r1 & ? & (-> & -> & Hsimple)%simple_loop_inv & H).
  apply bind_ok_inv in H as (c & ? & [Hc ->]%getitem_ok_inv & H).
  apply bind_ok_inv in H as (cats & ? & (-> & -> & Hcat)%category_inv & H).
  apply bind_ok_inv in H as (sc & ? & [Hsc ->]%getitem_ok_inv & H).
  apply bind_ok_inv in H as (subcats & ? & (-> & -> & Hsub)%category_inv & H).
  apply bind_ok_inv in H as (r2 & ? & (-> & -> & Hgrade)%grade_inv & H).
  apply bind_ok_inv in H as (r3 & ? & (-> & -> & H3)%apply_enum_inv & H).
  apply bind_ok_inv in H as (r4 & ? & (-> & -> & H4)%apply_list_enum_inv & H).
  apply bind_ok_inv in H as (r5 & ? & (-> & -> & H5)%apply_enum_inv & H).
  apply bind_ok_inv in H as (r6 & ? & (-> & -> & H6)%apply_list_enum_inv & H).
  apply bind_ok_inv in H as (r7 & ? & (-> & -> & H7)%apply_list_enum_inv & H).
  apply bind_ok_inv in H as (r8 & ? & (-> & -> & H8)%apply_enum_inv & H).
  apply bind_ok_inv in H as (r9 & ? & (-> & -> & H9)%apply_list_enum_inv & H).
  injection H as <- <-.
  assert (cell row "businessName" = name) as Ename
    by (unfold cell; by rewrite Hname).
  assert (cell row "category" = c) as Ec by (unfold cell; by rewrite Hc).
  assert (cell row "subCategory" = sc) as Esc by (unfold cell; by rewrite Hsc).
  split; [|split; [|done]].
  - unfold acceptable. rewrite Ec, Esc. by repeat split.
  - unfold record_of. by rewrite Ename, Ec, Esc.
Qed.

(** A row that passes every step is accepted. *)
Lemma parse_row_fwd {U : Utils} (row : Row) (st : CSVParser) :
  acceptable row st → _parse_row row st = (Ok (record_of row), st).
Proof.
  intros (Hmiss & Hsimple & Hcat & Hsub & Hgrade
          & H3 & H4 & H5 & H6 & H7 & H8 & H9).
  destruct (required_present row Hmiss) as (Hname & Hc & Hsc).
  unfold _parse_row.
  erewrite bind_ok;
    [|by rewrite validate_required_fields_eq, decide_True].
  rewrite (bind_ok _ _ _ _ _ (getitem_cell row _ st Hname)).
  rewrite (bind_ok _ _ _ _ _ (simple_loop_fwd row _ _ st Hsimple)).
  rewrite (bind_ok _ _ _ _ _ (getitem_cell row _ st Hc)).
  rewrite (bind_ok _ _ _ _ _ (category_fwd _ _ st Hcat)).
  rewrite (bind_ok _ _ _ _ _ (getitem_cell row _ st Hsc)).
  rewrite (bind_ok _ _ _ _ _ (category_fwd _ _ st Hsub)).
  rewrite (bind_ok _ _ _ _ _ (grade_fwd row _ st Hgrade)).
  rewrite (bind_ok _ _ _ _ _ (apply_enum_fwd _ _ row _ _ st H3)).
  rewrite (bind_ok _ _ _ _ _ (apply_list_enum_fwd _ _ row _ _ st H4)).
  rewrite (bind_ok _ _ _ _ _ (apply_enum_fwd _ _ row _ _ st H5)).
  rewrite (bind_ok _ _ _ _ _ (apply_list_enum_fwd _ _ row _ _ st H6)).
  rewrite (bind_ok _ _ _ _ _ (apply_list_enum_fwd _ _ row _ _ st H7)).
  rewrite (bind_ok _ _ _ _ _ (apply_enum_fwd _ _ row _ _ st H8)).
  rewrite (bind_ok _ _ _ _ _ (apply_list_enum_fwd _ _ row _ _ st H9)).
  reflexivity.
Qed.

(** X5: [_parse_row] accepts a row exactly when no step raises: the three
    required keys are present, [validate_field] returns for each simple
    field (and the row has the column when the result tests true), the
    category and subcategory cells are strings whose parts are all in the
    vocabulary, and [parse_grade] and the enumeration validators return.
    The record is then the one the steps build, and the session is left
    as it was. *)
Theorem parse_row_accepts_iff {U : Utils} (row : Row) (st : CSVParser) r st' :
  _parse_row row st = (Ok r, st')
  ↔ acceptable row st ∧ r = record_of row ∧ st' = st.
Proof.
  split.
  - apply parse_row_inv.
  - intros (Hacc & -> & ->). by apply parse_row_fwd.
Qed.

(** Attributes that later steps do not assign keep their value. *)
Lemma enum_step_keeps {A} (proj : ResourceDto → A) res set r :
  (∀ v x, proj (set v x) = proj x) → proj (enum_step res set r) = proj r.
Proof. intros H. unfold enum_step. by destruct res as [[v|]|]. Qed.

Lemma list_enum_step_keeps {A} (proj : ResourceDto → A) res set r :
  (∀ v x, proj (set v x) = proj x) → proj (list_enum_step res set r) = proj r.
Proof. intros H. unfold list_enum_step. by destruct res as [[[|v vs]|]|]. Qed.

Lemma grade_step_keeps {U : Utils} {A} (proj : ResourceDto → A) row r :
  (∀ g x, proj (set_grades g x) = proj x) → proj (grade_step row r) = proj r.
Proof.
  intros H. unfold grade_step. destruct (row !! "GRADELEVEL") as [raw|]; [|done].
  by destruct (parse_grade raw) as [[g|]|].
Qed.

Lemma simple_fold_keeps {U : Utils} {A} (proj : ResourceDto → A) row r fields :
  (∀ f v x, proj (setattr_simple f v x) = proj x) →
  proj (foldl (simple_step row) r fields) = proj r.
Proof.
  intros H. revert r. induction fields as [|f fs IH]; intros r; [done|].
  simpl. rewrite IH. unfold simple_step.
  by destruct (validate_field f row) as [[|]|].
Qed.

Lemma simple_step_keeps {U : Utils} {A} (proj : ResourceDto → A) row r f :
  (∀ f v x, proj (setattr_simple f v x) = proj x) →
  proj (simple_step row r f) = proj r.
Proof.
  intros H. unfold simple_step. by destruct (validate_field f row) as [[|]|].
Qed.

Lemma simple_step_keeps_at {U : Utils} {A} (proj : ResourceDto → A) row r f :
  (∀ v x, proj (setattr_simple f v x) = proj x) →
  proj (simple_step row r f) = proj r.
Proof.
  intros H. unfold simple_step. by destruct (validate_field f row) as [[|]|].
Qed.

Lemma setattr_simple_keeps {A} (proj : ResourceDto → A) :
  (∀ v x, proj (set_streetAddress v x) = proj x) →
  (∀ v x, proj (set_city v x) = proj x) →
  (∀ v x, proj (set_zipCode v x) = proj x) →
  (∀ v x, proj (set_phone v x) = proj x) →
  (∀ v x, proj (set_webSite v x) = proj x) →
  (∀ v x, proj (set_description v x) = proj x) →
  ∀ f v x, proj (setattr_simple f v x) = proj x.
Proof. intros ?????? f v x. unfold setattr_simple. by repeat case_decide. Qed.

(** Peels the steps of [record_of] that leave the attribute [proj]
    alone. *)
Ltac peel proj :=
  repeat first
    [ rewrite (list_enum_step_keeps proj) by reflexivity
    | rewrite (enum_step_keeps proj) by reflexivity
    | rewrite (grade_step_keeps proj) by reflexivity
    | rewrite (simple_fold_keeps proj)
        by (apply setattr_simple_keeps; reflexivity)
    | rewrite (simple_step_keeps proj)
        by (apply setattr_simple_keeps; reflexivity)
    | rewrite (simple_step_keeps_at proj) by reflexivity
    | progress simpl ].

(** X6: the record of an accepted row has id 0, and its category is the
    list of the parts of the row's category cell: never empty, and every
    part a member of the category vocabulary; the same for the
    subcategory and the subcategory vocabulary. *)
Theorem parse_row_categories {U : Utils} (row : Row) (st : CSVParser) r st' :
  _parse_row row st = (Ok r, st') →
  id r = 0
  ∧ (∃ s cats,
       row !! "category" = Some (PyStr s)
       ∧ cats = PyStr.split "+" s
       ∧ category r = Some cats ∧ cats ≠ []
       ∧ Forall (λ c, c ∈ categories st) cats)
  ∧ (∃ s subcats,
       row !! "subCategory" = Some (PyStr s)
       ∧ subcats = PyStr.split "+" s
       ∧ subCategory r = Some subcats ∧ subcats ≠ []
       ∧ Forall (λ c, c ∈ subcategories st) subcats).
Proof.
  intros (Hacc & -> & ->)%parse_row_inv.
  destruct Hacc as (Hmiss & _ & (s & Hc & Hcat) & (s' & Hsc & Hsub) & _).
  destruct (required_present row Hmiss) as (_ & [c Ec] & [sc Esc]).
  unfold cell in *. rewrite Ec in Hc. rewrite Esc in Hsc. simpl in *. subst.
  unfold record_of, cell. rewrite Ec, Esc. simpl.
  split; [|split].
  - by peel id.
  - exists s, (PyStr.split "+" s). peel category.
    repeat split; [apply split_nonempty|done].
  - exists s', (PyStr.split "+" s'). peel subCategory.
    repeat split; [apply split_nonempty|done].
Qed.

(** Witness of X6's theorem: the first row of the example. *)
Lemma parse_row_categories_witness :
  ∃ r, _parse_row (U := Standin.utils)
         (Standin.example_row "Acme" "Tutoring" "Math" "555-1212")
         Standin.example_session
       = (Ok r, Standin.example_session)
       ∧ id r = 0 ∧ category r = Some ["Tutoring"]
       ∧ subCategory r = Some ["Math"].
Proof.
  assert (∃ r, _parse_row (U := Standin.utils)
                 (Standin.example_row "Acme" "Tutoring" "Math" "555-1212")
                 Standin.example_session
               = (Ok r, Standin.example_session)) as [r Hr].
  { eexists. vm_compute. reflexivity. }
  exists r. split; [exact Hr|].
  destruct (parse_row_categories (U := Standin.utils) _ _ _ _ Hr)
    as (Hid & (s & cats & Hs & -> & Hcat & _)
        & (s' & subcats & Hs' & -> & Hsub & _)).
  vm_compute in Hs, Hs'. injection Hs as <-. injection Hs' as <-.
  split; [exact Hid|]. split; [exact Hcat|exact Hsub].
Defined.

(** Solves the case of one simple field: [proj] is its attribute and
    [Hb] the result of [validate_field] for it. *)
Ltac simple_field proj Hb :=
  eexists; split; [exact Hb|]; split; [|done];
  unfold getattr_simple; simpl; unfold record_of; peel proj;
  unfold simple_step at 1; rewrite Hb;
  match goal with
  | |- context [if ?b then _ else _] => destruct b
  end; [reflexivity|by peel proj].

(** X7: in the record of an accepted row, each of the six simple
    attributes is the row's cell of that name when [validate_field]
    returned a result that tests true for it, and is [None] otherwise. *)
Theorem parse_row_simple_fields {U : Utils} (row : Row) (st : CSVParser)
    r st' :
  _parse_row row st = (Ok r, st') →
  ∀ field, field ∈ simple_fields →
    ∃ b, validate_field field row = Ok b
         ∧ getattr_simple field r = (if b then cell row field else PyNone)
         ∧ (b = true → is_Some (row !! field)).
Proof.
  intros (Hacc & -> & ->)%parse_row_inv field Hin.
  destruct Hacc as (_ & Hsimple & _). unfold simple_fields in *.
  apply Forall_cons in Hsimple as [(b1 & Hb1 & ?) Hsimple].
  apply Forall_cons in Hsimple as [(b2 & Hb2 & ?) Hsimple].
  apply Forall_cons in Hsimple as [(b3 & Hb3 & ?) Hsimple].
  apply Forall_cons in Hsimple as [(b4 & Hb4 & ?) Hsimple].
  apply Forall_cons in Hsimple as [(b5 & Hb5 & ?) Hsimple].
  apply Forall_cons in Hsimple as [(b6 & Hb6 & ?) _].
  repeat (apply elem_of_cons in Hin as [->|Hin]).
  - simple_field streetAddress Hb1.
  - simple_field city Hb2.
  - simple_field zipCode Hb3.
  - simple_field phone Hb4.
  - simple_field webSite Hb5.
  - simple_field description Hb6.
  - by apply elem_of_nil in Hin.
Qed.

(** Witness of X7's theorem: the phone of the first row of the
    example. *)
Lemma parse_row_simple_fields_witness :
  ∃ r, _parse_row (U := Standin.utils)
         (Standin.example_row "Acme" "Tutoring" "Math" "555-1212")
         Standin.example_session
       = (Ok r, Standin.example_session)
       ∧ getattr_simple "phone" r = PyStr "555-1212"
       ∧ getattr_simple "city" r = PyNone.
Proof.
  assert (∃ r, _parse_row (U := Standin.utils)
                 (Standin.example_row "Acme" "Tutoring" "Math" "555-1212")
                 Standin.example_session
               = (Ok r, Standin.example_session)) as [r Hr].
  { eexists. vm_compute. reflexivity. }
  exists r. split; [exact Hr|].
  pose proof (parse_row_simple_fields (U := Standin.utils) _ _ _ _ Hr) as Hf.
  split.
  - destruct (Hf "phone") as (b & Hb & Hphone & _); [by_evaluation|].
    vm_compute in Hb. injection Hb as <-. exact Hphone.
  - destruct (Hf "city") as (b & Hb & Hcity & _); [by_evaluation|].
    vm_compute in Hb. injection Hb as <-. exact Hcity.
Defined.

(** X8: in the record of an accepted row the two grade attributes are
    set together or not at all: both are set, from the pair [parse_grade]
    returned, when the row has the grade column and the result tests true;
    both are left unset otherwise. *)
Theorem parse_row_grades {U : Utils} (row : Row) (st : CSVParser) r st' :
  _parse_row row st = (Ok r, st') →
  (startGrade r, endGrade r) = grades_of row
  ∧ (is_Some (startGrade r) ↔ is_Some (endGrade r))
  ∧ (row !! "GRADELEVEL" = None → startGrade r = None ∧ endGrade r = None).
Proof.
  intros (_ & -> & ->)%parse_row_inv.
  assert ((startGrade (record_of row), endGrade (record_of row))
          = grades_of row) as Heq.
  { unfold record_of. peel startGrade. peel endGrade.
    unfold grade_step, grades_of.
    destruct (row !! "GRADELEVEL") as [raw|].
    - destruct (parse_grade raw) as [[g|]|];
        peel startGrade; by peel endGrade.
    - peel startGrade. by peel endGrade. }
  split; [exact Heq|]. unfold grades_of in Heq. split.
  - destruct (row !! "GRADELEVEL") as [raw|];
      [destruct (parse_grade raw) as [[g|]|]|];
      injection Heq as -> ->; split; intros [? ?]; by eauto.
  - intros Hnone. rewrite Hnone in Heq. by injection Heq as -> ->.
Qed.

(** Witness of X8's theorem: a row with the grade span K-5. *)
Lemma parse_row_grades_witness :
  ∃ r, _parse_row (U := Example.utils) Example.full_row
         Standin.example_session
       = (Ok r, Standin.example_session)
       ∧ (startGrade r, endGrade r) = (Some "K", Some "5").
Proof.
  assert (∃ r, _parse_row (U := Example.utils) Example.full_row
                 Standin.example_session
               = (Ok r, Standin.example_session)) as [r Hr].
  { eexists. vm_compute. reflexivity. }
  exists r. split; [exact Hr|].
  destruct (parse_row_grades (U := Example.utils) _ _ _ _ Hr) as [Heq _].
  exact Heq.
Defined.

(** Solves the case of one enumerated attribute: [proj] is the attribute
    and [Hok] says that its validator returned. *)
Ltac enum_field proj Hok :=
  unfold record_of; peel proj;
  match goal with
  | |- context [enum_step ?res _ _] =>
      destruct res as [[?|]|]; [reflexivity|by peel proj|discriminate Hok]
  end.

(** X9: in the record of an accepted row, [state], [cost] and [gender]
    are what [validate_enum_field] returned for them, and the four
    list-valued attributes are what [validate_list_enum_field] returned
    when that is a list that is not empty, and are left unset
    otherwise. *)
Theorem parse_row_enums {U : Utils} (row : Row) (st : CSVParser) r st' :
  _parse_row row st = (Ok r, st') →
  validate_enum_field State "state" row = Ok (state r)
  ∧ validate_enum_field Cost "cost" row = Ok (cost r)
  ∧ validate_enum_field Gender "gender" row = Ok (gender r)
  ∧ (∃ res, validate_list_enum_field Interest "careerInterest" row = Ok res
            ∧ careerInterest r = if_nonempty res)
  ∧ (∃ res, validate_list_enum_field InstructionType "instruction" row
            = Ok res
            ∧ instruction r = if_nonempty res)
  ∧ (∃ res, validate_list_enum_field BoardingType "boarding" row = Ok res
            ∧ boarding r = if_nonempty res)
  ∧ (∃ res, validate_list_enum_field LocationLimit "locationLimit" row
            = Ok res
            ∧ locationLimit r = if_nonempty res).
Proof.
  intros (Hacc & -> & ->)%parse_row_inv.
  destruct Hacc as (_ & _ & _ & _ & _ & H3 & H4 & H5 & H6 & H7 & H8 & H9).
  repeat split.
  - enum_field state H3.
  - enum_field cost H5.
  - enum_field gender H8.
  - destruct (validate_list_enum_field Interest "careerInterest" row)
      as [res|] eqn:E; [|discriminate H4].
    exists res. split; [done|]. unfold record_of. peel careerInterest.
    rewrite E. by destruct res as [[|v vs]|]; peel careerInterest.
  - destruct (validate_list_enum_field InstructionType "instruction" row)
      as [res|] eqn:E; [|discriminate H6].
    exists res. split; [done|]. unfold record_of. peel instruction.
    rewrite E. by destruct res as [[|v vs]|]; peel instruction.
  - destruct (validate_list_enum_field BoardingType "boarding" row)
      as [res|] eqn:E; [|discriminate H7].
    exists res. split; [done|]. unfold record_of. peel boarding.
    rewrite E. by destruct res as [[|v vs]|]; peel boarding.
  - destruct (validate_list_enum_field LocationLimit "locationLimit" row)
      as [res|] eqn:E; [|discriminate H9].
    exists res. split; [done|]. unfold record_of. peel locationLimit.
    rewrite E. by destruct res as [[|v vs]|]; peel locationLimit.
Qed.

(** Witness of X9's theorem: a row with a state in lower case and two
    career interests. *)
Lemma parse_row_enums_witness :
  ∃ r, _parse_row (U := Example.utils) Example.full_row
         Standin.example_session
       = (Ok r, Standin.example_session)
       ∧ state r = Some (mkEnumMember State "CA")
       ∧ cost r = None
       ∧ careerInterest r
         = Some [mkEnumMember Interest "STEM"; mkEnumMember Interest "Arts"].
Proof.
  assert (∃ r, _parse_row (U := Example.utils) Example.full_row
                 Standin.example_session
               = (Ok r, Standin.example_session)) as [r Hr].
  { eexists. vm_compute. reflexivity. }
  exists r. split; [exact Hr|].
  destruct (parse_row_enums (U := Example.utils) _ _ _ _ Hr)
    as (Hstate & Hcost & _ & (res & Hres & Hci) & _).
  vm_compute in Hstate, Hcost, Hres.
  injection Hstate as Hstate. injection Hcost as Hcost.
  injection Hres as <-.
  split; [by symmetry|]. split; [by symmetry|]. exact Hci.
Defined.

(** ** The order of the checks of the row normalizer *)

Lemma category_state (c : pyval) sub (st : CSVParser) :
  (_validate_category_field c sub st).2 = st.
Proof. apply rv_validate_category_field. Qed.

Lemma simple_loop_raise {U : Utils} (row : Row) pre f post e r
    (st : CSVParser) :
  Forall (simple_ok row) pre →
  validate_field f row = Raise e →
  for_fold (pre ++ f :: post) r
    (λ resource field,
       res <- lift (validate_field field row) ;;
       if (res : bool) then
         v <- getitem row field ;; ret (setattr_simple field v resource)
       else ret resource) st
  = (Raise e, st).
Proof.
  intros Hpre He. rewrite for_fold_app.
  rewrite (bind_ok _ _ _ _ _ (simple_loop_fwd row pre r st Hpre)).
  simpl. unfold bind at 1 2, lift at 1. by rewrite He.
Qed.

(** X10: the checks of [_parse_row] come in a fixed order, and the first
    that fails decides the exception. With the required keys present: an
    exception of [validate_field] for a simple field is raised when the
    fields before it passed, whatever the categories are; when all simple
    fields pass, a failure of the category check is raised whatever the
    subcategory is; and when the category passes as well, a failure of the
    subcategory check is raised whatever the grade and the enumerated
    columns hold. In each case the session is left as it was. *)
Theorem parse_row_check_order {U : Utils} (row : Row) (st : CSVParser) :
  missing_fields row = [] →
  (∀ pre f post e,
     simple_fields = pre ++ f :: post →
     Forall (simple_ok row) pre →
     validate_field f row = Raise e →
     _parse_row row st = (Raise e, st))
  ∧ (Forall (simple_ok row) simple_fields →
     (∀ e,
        (_validate_category_field (cell row "category") false st).1 = Raise e →
        _parse_row row st = (Raise e, st))
     ∧ (∀ e,
          category_ok (cell row "category") false st →
          (_validate_category_field (cell row "subCategory") true st).1
          = Raise e →
          _parse_row row st = (Raise e, st))).
Proof.
  intros Hmiss.
  destruct (required_present row Hmiss) as (Hname & Hc & Hsc).
  assert (_validate_required_fields row st = (Ok tt, st)) as Hreq
    by (by rewrite validate_required_fields_eq, decide_True).
  split; [|intros Hsimple; split].
  - intros pre f post e Hfields Hpre He. unfold _parse_row.
    rewrite (bind_ok _ _ _ _ _ Hreq).
    rewrite (bind_ok _ _ _ _ _ (getitem_cell row _ st Hname)).
    apply bind_raise. fold simple_fields. rewrite Hfields.
    by apply simple_loop_raise.
  - intros e He. unfold _parse_row.
    rewrite (bind_ok _ _ _ _ _ Hreq).
    rewrite (bind_ok _ _ _ _ _ (getitem_cell row _ st Hname)).
    rewrite (bind_ok _ _ _ _ _ (simple_loop_fwd row _ _ st Hsimple)).
    rewrite (bind_ok _ _ _ _ _ (getitem_cell row _ st Hc)).
    apply bind_raise.
    pose proof (category_state (cell row "category") false st) as Hst.
    destruct (_validate_category_field (cell row "category") false st).
    simpl in *. by subst.
  - intros e Hcat He. unfold _parse_row.
    rewrite (bind_ok _ _ _ _ _ Hreq).
    rewrite (bind_ok _ _ _ _ _ (getitem_cell row _ st Hname)).
    rewrite (bind_ok _ _ _ _ _ (simple_loop_fwd row _ _ st Hsimple)).
    rewrite (bind_ok _ _ _ _ _ (getitem_cell row _ st Hc)).
    rewrite (bind_ok _ _ _ _ _ (category_fwd _ _ st Hcat)).
    rewrite (bind_ok _ _ _ _ _ (getitem_cell row _ st Hsc)).
    apply bind_raise.
    pose proof (category_state (cell row "subCategory") true st) as Hst.
    destruct (_validate_category_field (cell row "subCategory") true st).
    simpl in *. by subst.
Qed.

(** Witness of X10's theorem: a row whose category and subcategory are
    both unknown is rejected for its category. *)
Lemma parse_row_check_order_witness :
  _parse_row (U := Standin.utils)
    (Standin.example_row "Delta" "X" "Bad" EmptyString)
    Standin.example_session
  = (Raise (PyExn Exception (unknown_category_msg false "X")),
     Standin.example_session).
Proof.
  destruct (parse_row_check_order (U := Standin.utils)
              (Standin.example_row "Delta" "X" "Bad" EmptyString)
              Standin.example_session) as [_ Hcat]; [by vm_compute|].
  destruct Hcat as [Hcat _].
  - repeat constructor; exists false; split; by vm_compute.
  - apply Hcat. vm_compute. reflexivity.
Defined.

(** X11: whatever [_parse_row] returns or raises, all it does to the
    session is to append the entries of the missing required keys to the
    error log; with the three keys present the session is left as it was,
    also when the row is rejected. *)
Theorem parse_row_session {U : Utils} (row : Row) (st : CSVParser) :
  (_parse_row row st).2 = log_all (required_msg <$> missing_fields row) st
  ∧ (is_ok (_parse_row row st).1 = true → missing_fields row = [])
  ∧ (missing_fields row = [] → (_parse_row row st).2 = st).
Proof.
  destruct (parse_row_split row) as (fields & Hrv & ->).
  unfold bind. rewrite validate_required_fields_eq.
  destruct (decide (missing_fields row = [])) as [E|E]; simpl.
  - destruct (Hrv st) as [Hst _]. destruct (fields st) as [r1 st1].
    simpl in *. subst st1. rewrite E. simpl. by rewrite log_all_nil.
  - done.
Qed.

(** ** Parsing a file, row by row *)

Lemma acceptable_same_vocabulary {U : Utils} (row : Row) st1 st2 :
  same_vocabulary st1 st2 → acceptable row st1 → acceptable row st2.
Proof.
  intros [Hc Hs] (? & ? & (s & ? & Hcat) & (s' & ? & Hsub) & ?).
  unfold acceptable, category_ok, vocabulary in *. simpl in *.
  rewrite <- Hc, <- Hs. split; [done|]. split; [done|].
  split; [by exists s|]. split; [by exists s'|done].
Qed.

(** The loop over the rows returns exactly when every row is acceptable;
    the records of the rows are then appended in row order. *)
Lemma parse_rows_iff {U : Utils} (rows : list Row) (acc : Z) st n st' :
  for_fold rows acc parse_row_step st = (Ok n, st')
  ↔ Forall (λ row, acceptable row st) rows
    ∧ n = acc + Z.of_nat (length rows)
    ∧ st' = with_records (record_of <$> rows) st.
Proof.
  revert acc st. induction rows as [|row rows IH]; intros acc st; simpl.
  - rewrite with_records_nil. split.
    + intros [= <- <-]. repeat split; [constructor|lia].
    + intros (_ & -> & ->). unfold ret. do 2 f_equal. lia.
  - rewrite with_records_cons. split.
    + intros (k & st1 & Hstep & Hrest)%bind_ok_inv.
      unfold parse_row_step in Hstep.
      apply bind_ok_inv in Hstep as (r & st0 & Hrow & Happ).
      apply parse_row_inv in Hrow as (Hacc & -> & ->).
      injection Happ as <- <-.
      apply IH in Hrest as (Hall & -> & ->).
      repeat split; [|lia].
      constructor; [done|].
      eapply Forall_impl; [exact Hall|]. intros row'.
      apply acceptable_same_vocabulary. by split.
    + intros (Hall & -> & ->). apply Forall_cons in Hall as [Hrow Hall].
      unfold bind at 1. unfold parse_row_step at 1.
      rewrite (bind_ok _ _ _ _ _ (parse_row_fwd row st Hrow)). simpl.
      apply IH. repeat split; [|lia].
      eapply Forall_impl; [exact Hall|]. intros row'.
      apply acceptable_same_vocabulary. by split.
Qed.

(** X12: [_parse_csv] returns exactly when the file opens, has a header
    of valid column names only, and every row is acceptable to the row
    normalizer. It then returns the number of rows, and has appended the
    records of the rows to the resources, one per row and in row order;
    nothing else of the session has changed. *)
Theorem parse_csv_succeeds_iff {U : Utils} {Sch : Schema} {Sys : System}
    (fp : string) (st : CSVParser) n st' :
  _parse_csv fp st = (Ok n, st')
  ↔ ∃ header rows,
      read_csv fp = Ok (mkCsvFile (Some header) rows)
      ∧ invalid_fields header = []
      ∧ Forall (λ row, acceptable row st) rows
      ∧ n = Z.of_nat (length rows)
      ∧ st' = with_records (record_of <$> rows) st.
Proof.
  split.
  - unfold _parse_csv.
    destruct (read_csv fp) as [[header rows]|e] eqn:Hread; [|done].
    unfold bind at 1 2. simpl. destruct header as [header|]; [|done].
    simpl. unfold bind at 1. rewrite validate_column_names_eq.
    destruct (decide (invalid_fields header = [])) as [E|E]; [|done].
    intros (Hall & -> & ->)%parse_rows_iff.
    exists header, rows. repeat split; first [done|lia].
  - intros (header & rows & Hread & Hheader & Hall & -> & ->).
    rewrite (parse_csv_unfold _ _ _ _ Hread Hheader).
    apply parse_rows_iff. repeat split; first [done|lia].
Qed.

(** X13: nothing is parsed before the header has passed. When the file
    cannot be opened the exception of [open] is raised; when the file is
    empty, so that the reader has no field names, a [TypeError] is raised;
    in both cases the session is left as it was. When the header has a
    field that is not valid, the exception of the header check is raised
    and only the error log has changed: no row is normalized and no
    record appended, whatever rows the file holds. *)
Theorem parse_csv_before_rows {U : Utils} {Sch : Schema} {Sys : System}
    (fp : string) (st : CSVParser) :
  (∀ e, read_csv fp = Raise e → _parse_csv fp st = (Raise e, st))
  ∧ (∀ rows, read_csv fp = Ok (mkCsvFile None rows) →
       _parse_csv fp st
       = (Raise (PyExn TypeError "'NoneType' object is not iterable"), st))
  ∧ (∀ header rows,
       read_csv fp = Ok (mkCsvFile (Some header) rows) →
       invalid_fields header ≠ [] →
       let st' := log_all (column_msg fp <$> invalid_fields header) st in
       _parse_csv fp st = (Raise (invalid_columns fp (err_log st')), st')
       ∧ resources st' = resources st).
Proof.
  split; [|split].
  - intros e Hread. unfold _parse_csv. by rewrite Hread.
  - intros rows Hread. unfold _parse_csv. by rewrite Hread.
  - intros header rows Hread Hbad st'. split; [|done].
    unfold _parse_csv. rewrite Hread. unfold bind at 1 2. simpl.
    apply bind_raise. by rewrite validate_column_names_eq, decide_False.
Qed.

(** Witness of X12's theorem: the file of one row of the two-file
    example. *)
Lemma parse_csv_succeeds_iff_witness :
  _parse_csv (U := Standin.utils) (Sch := Standin.schema)
    (Sys := Standin.two_files) "b.csv" Standin.example_session
  = (Ok 1,
     with_records
       [record_of (U := Standin.utils)
          (Standin.example_row "Gamma" "Tutoring+Tutoring" "Math" EmptyString)]
       Standin.example_session).
Proof.
  apply (parse_csv_succeeds_iff (U := Standin.utils) (Sch := Standin.schema)
           (Sys := Standin.two_files)).
  eexists _, _. split; [reflexivity|]. split; [by vm_compute|].
  split; [|by split]. constructor; [|constructor].
  unfold acceptable. split; [by vm_compute|]. split.
  { repeat constructor; exists false; split; by vm_compute. }
  split.
  { eexists. split; [reflexivity|]. repeat constructor; by_evaluation. }
  split.
  { eexists. split; [reflexivity|]. repeat constructor; by_evaluation. }
  split.
  { intros raw Hraw. by vm_compute in Hraw. }
  repeat split; by vm_compute.
Defined.

(** Witness of X13's theorem: an empty file and a file with an unknown
    column. *)
Lemma parse_csv_before_rows_witness :
  _parse_csv (U := Standin.utils) (Sch := Standin.schema)
    (Sys := Example.mixed_files) "empty.csv" Standin.example_session
  = (Raise (PyExn TypeError "'NoneType' object is not iterable"),
     Standin.example_session)
  ∧ _parse_csv (U := Standin.utils) (Sch := Standin.schema)
      (Sys := Example.mixed_files) "header.csv" Standin.example_session
    = (Raise (invalid_columns (U := Standin.utils) "header.csv"
                [column_msg "header.csv" "fax"]),
       log_all [column_msg "header.csv" "fax"] Standin.example_session).
Proof.
  split.
  - by apply (parse_csv_before_rows (U := Standin.utils)
                (Sch := Standin.schema) (Sys := Example.mixed_files)
                "empty.csv" Standin.example_session) with (rows := []).
  - destruct (parse_csv_before_rows (U := Standin.utils)
                (Sch := Standin.schema) (Sys := Example.mixed_files)
                "header.csv" Standin.example_session) as (_ & _ & Hheader).
    destruct (Hheader ["businessName"; "fax"]
                [Standin.example_row "Acme" "Tutoring" "Math" EmptyString])
      as [Hrun _]; [reflexivity|by vm_compute|].
    rewrite Hrun. vm_compute. reflexivity.
Defined.

(** ** Running the tasks of all files *)

(** The session after [gather]: every task has run, in order. *)
Lemma gather_state {S A} (tasks : list (M S A)) (st : S) :
  (gather tasks st).2 = foldl (λ s t, (t s).2) st tasks.
Proof.
  revert st. induction tasks as [|t ts IH]; intros st; [done|].
  simpl. specialize (IH (t st).2).
  destruct (t st) as [r st1]. simpl in *.
  by destruct (gather ts st1) as [rs st2].
Qed.

(** The exception of [gather] is that of the first task that raises. *)
Lemma gather_first_raise {S A} (before after : list (M S A)) (t : M S A)
    (st : S) l st1 e st2 :
  gather before st = (Ok l, st1) →
  t st1 = (Raise e, st2) →
  gather (before ++ t :: after) st
  = (Raise e, foldl (λ s t, (t s).2) st2 after).
Proof.
  revert st l. induction before as [|b bs IH]; intros st l Hb Ht.
  - injection Hb as <- <-. simpl. rewrite Ht.
    pose proof (gather_state after st2) as Hst.
    destruct (gather after st2) as [rs st3]. simpl in *. by subst.
  - simpl in *. destruct (b st) as [[a|e'] sb].
    + destruct (gather bs sb) as [[l'|e'] sb'] eqn:Hbs; [|done].
      injection Hb as <- <-. by rewrite (IH _ _ Hbs Ht).
    + by destruct (gather bs sb) as [[l'|e''] sb'].
Qed.

(** X14: a file that fails does not stop the others. When the task of
    [fp] is the first to raise, [_parse_all] raises its exception, and
    the session it leaves is the one after the tasks of all the files
    that follow [fp] have run as well. *)
Theorem parse_all_runs_every_file {U : Utils} {Sch : Schema} {Sys : System}
    (st : CSVParser) (before after : list string) (fp : string)
    counts st1 e st2 :
  set_order (files st) = before ++ fp :: after →
  gather (_parse_csv <$> before) st = (Ok counts, st1) →
  _parse_csv fp st1 = (Raise e, st2) →
  _parse_all st
  = (Raise e, foldl (λ s f, (_parse_csv f s).2) st2 after).
Proof.
  intros Horder Hbefore Hfp. unfold _parse_all, bind, get.
  rewrite Horder, fmap_app, fmap_cons.
  rewrite (gather_first_raise _ _ _ _ _ _ _ _ Hbefore Hfp).
  f_equal. generalize st2. clear.
  induction after as [|f fs IH]; intros s; [done|]. simpl. apply IH.
Qed.

(** Witness of X14's theorem: the file with the unknown category comes
    first; the record of the good file is appended all the same. *)
Lemma parse_all_runs_every_file_witness :
  ∃ st',
    _parse_all (U := Standin.utils) (Sch := Standin.schema)
      (Sys := Example.reversed Example.mixed_files) Example.mixed_session
    = (Raise (PyExn Exception (unknown_category_msg false "X")), st')
    ∧ length (resources st') = 1%nat.
Proof.
  eexists. split.
  - eapply (parse_all_runs_every_file (U := Standin.utils)
              (Sch := Standin.schema)
              (Sys := Example.reversed Example.mixed_files)
              Example.mixed_session [] ["good.csv"] "bad.csv").
    + vm_compute. reflexivity.
    + reflexivity.
    + vm_compute. reflexivity.
  - vm_compute. reflexivity.
Defined.

(** ** What parsing does to the session *)

Lemma only_appended_refl st : only_appended st st.
Proof. exists [], []. by rewrite with_records_nil, log_all_nil. Qed.

Lemma only_appended_trans st1 st2 st3 :
  only_appended st1 st2 → only_appended st2 st3 → only_appended st1 st3.
Proof.
  intros (r1 & m1 & ->) (r2 & m2 & ->). exists (r1 ++ r2), (m1 ++ m2).
  unfold log_all, with_records. simpl. by rewrite !app_assoc.
Qed.

Lemma parse_rows_effect {U : Utils} (rows : list Row) (acc : Z) st r st' :
  for_fold rows acc parse_row_step st = (r, st') → only_appended st st'.
Proof.
  revert acc st. induction rows as [|row rows IH]; intros acc st; simpl.
  - intros [= <- <-]. apply only_appended_refl.
  - unfold bind at 1. unfold parse_row_step at 1. unfold bind at 1.
    destruct (_parse_row row st) as [[rec|e] s1] eqn:Hrow.
    + apply parse_row_ok in Hrow as (-> & _). simpl. intros Hrest%IH.
      eapply only_appended_trans; [|exact Hrest].
      exists [rec], []. by rewrite log_all_nil, with_records_cons,
                             with_records_nil.
    + apply parse_row_state in Hrow as (msgs & ->). intros [= <- <-].
      exists [], msgs. by rewrite with_records_nil.
Qed.

Lemma parse_csv_effect {U : Utils} {Sch : Schema} {Sys : System}
    (fp : string) st r st' :
  _parse_csv fp st = (r, st') → only_appended st st'.
Proof.
  unfold _parse_csv. destruct (read_csv fp) as [[header rows]|e].
  - unfold bind at 1 2. simpl. destruct header as [header|]; simpl.
    + unfold bind at 1. rewrite validate_column_names_eq.
      destruct (decide (invalid_fields header = [])).
      * apply parse_rows_effect.
      * intros [= <- <-]. eexists [], _. by rewrite with_records_nil.
    + intros [= <- <-]. apply only_appended_refl.
  - intros [= <- <-]. apply only_appended_refl.
Qed.

(** X15: whatever the files hold, and whether it returns or raises,
    [_parse_all] only appends: the resources and the error log of the
    session are extended at their ends, and the file set, the flags and
    the vocabulary are left as they were. *)
Theorem parse_all_only_appends {U : Utils} {Sch : Schema} {Sys : System}
    (st : CSVParser) :
  let st' := (_parse_all st).2 in
  resources st `prefix_of` resources st'
  ∧ err_log st `prefix_of` err_log st'
  ∧ files st' = files st
  ∧ (verbose_flag st', post_flag st', rollback_flag st')
    = (verbose_flag st, post_flag st, rollback_flag st)
  ∧ (categories st', subcategories st') = (categories st, subcategories st).
Proof.
  assert (only_appended st (_parse_all st).2) as (records & msgs & ->).
  { unfold _parse_all, bind, get.
    assert (∀ fps s, only_appended s (gather (_parse_csv <$> fps) s).2)
      as Hgather.
    { induction fps as [|fp fps IH]; intros s; [apply only_appended_refl|].
      rewrite gather_state, fmap_cons. simpl. rewrite <- gather_state.
      eapply only_appended_trans; [|apply IH].
      destruct (_parse_csv fp s) as [r s1] eqn:Hfp. simpl.
      by apply parse_csv_effect in Hfp. }
    specialize (Hgather (set_order (files st)) st).
    by destruct (gather (_parse_csv <$> set_order (files st)) st)
      as [[counts|e] s1]. }
  simpl. repeat split; by eexists.
Qed.

(** ** A whole run *)

Lemma process_args_ok_inv {U : Utils} {Sys : System} argv (st : CSVParser) st' :
  _process_args argv st = (Ok tt, st') →
  (2 ≤ length argv)%nat ∧ missing_paths (drop 1 argv) = []
  ∧ st' = foldl after_arg st (drop 1 argv).
Proof.
  unfold _process_args.
  destruct (decide (Z.of_nat (length argv) < 2)) as [|Hlen]; [done|].
  unfold scan_args. rewrite (bind_ok _ _ _ _ _ (scan_args_eq _ 0 st)).
  destruct (missing_paths (drop 1 argv)) as [|m ms].
  - simpl. intros [= <-]. repeat split. lia.
  - rewrite decide_True by (simpl; lia). done.
Qed.

Lemma gather_parse_ok_inv {U : Utils} {Sch : Schema} {Sys : System}
    (fps : list string) (st : CSVParser) counts st' :
  gather (_parse_csv <$> fps) st = (Ok counts, st') →
  ∃ records, st' = with_records records st
             ∧ Z.of_nat (length records) = sum counts.
Proof.
  revert st counts. induction fps as [|fp fps IH]; intros st counts.
  - intros [= <- <-]. exists []. by rewrite with_records_nil.
  - rewrite fmap_cons. simpl.
    destruct (_parse_csv fp st) as [[n|e] s1] eqn:Hfp;
      destruct (gather (_parse_csv <$> fps) s1) as [[l|e'] s2] eqn:Hrest;
      try done.
    intros [= <- <-].
    apply parse_csv_ok in Hfp as (recs & -> & -> & _).
    apply IH in Hrest as (records & -> & Hlen).
    exists (recs ++ records). rewrite with_records_app, length_app, sum_cons.
    split; [done|lia].
Qed.

(** X16: when [parse] returns a count, no path argument was missing, the
    vocabulary of the session is the set of the fetched categories and
    the set of the fetched subcategories, the resources have grown by
    exactly the count returned, and nothing was appended to the error
    log. *)
Theorem parse_returns_count {U : Utils} {Sch : Schema} {Sys : System}
    (argv : list string) (st : CSVParser) n st' :
  parse argv st = (Ok n, st') →
  (2 ≤ length argv)%nat
  ∧ missing_paths (drop 1 argv) = []
  ∧ (∀ p, p ∈ files st' ↔ p ∈ files st ∨ p ∈ found_csvs (drop 1 argv))
  ∧ (∃ cats subcats,
       all_categories = Ok (cats, subcats)
       ∧ categories st' = list_to_set cats
       ∧ subcategories st' = list_to_set subcats)
  ∧ Z.of_nat (length (resources st'))
    = Z.of_nat (length (resources st)) + n
  ∧ err_log st' = err_log st.
Proof.
  unfold parse.
  intros ([] & s1 & (Hlen & Hmiss & ->)%process_args_ok_inv & H)%bind_ok_inv.
  apply bind_ok_inv in H as ([cats subcats] & ? & Hvoc & H).
  unfold lift in Hvoc. injection Hvoc as Hvoc <-.
  apply bind_ok_inv in H as ([] & s2 & [= <-] & H).
  apply bind_ok_inv in H as (n' & s3 & Hall & [= <- <-]).
  unfold _parse_all, bind, get in Hall.
  destruct (gather _ _) as [[counts|e] s4] eqn:Hg; [|done].
  injection Hall as <- <-.
  apply gather_parse_ok_inv in Hg as (records & -> & Hsum). simpl in *.
  destruct (after_args_state (drop 1 argv) st) as (Hlog & Hfiles & Hres & _).
  split; [done|]. split; [done|]. split; [exact Hfiles|].
  split; [by exists cats, subcats|].
  rewrite Hres, Hlog, Hmiss, length_app. simpl. rewrite app_nil_r.
  split; [lia|done].
Qed.

(** Witness of X16's theorem: a run over the two files of the example,
    with the verbose flag. *)
Lemma parse_returns_count_witness :
  ∃ st',
    parse (U := Standin.utils) (Sch := Standin.schema)
      (Sys := Standin.two_files) ["main.py"; "-v"; "a.csv"; "b.csv"]
      CSVParser_init
    = (Ok 3, st')
    ∧ length (resources st') = 3%nat ∧ err_log st' = [].
Proof.
  assert (∃ st',
    parse (U := Standin.utils) (Sch := Standin.schema)
      (Sys := Standin.two_files) ["main.py"; "-v"; "a.csv"; "b.csv"]
      CSVParser_init = (Ok 3, st')) as [st' Hrun].
  { eexists. vm_compute. reflexivity. }
  exists st'. split; [exact Hrun|].
  destruct (parse_returns_count (U := Standin.utils) (Sch := Standin.schema)
              (Sys := Standin.two_files) _ _ _ _ Hrun)
    as (_ & _ & _ & _ & Hcount & Hlog).
  simpl in Hcount. split; [lia|exact Hlog].
Defined.

(** ** More on the upload sink *)

Section UploadMore.

Context {U : Utils} {Sys : System} {E : Endpoint}.

Lemma upload_one_malformed (l : Uploader.Locals) r (w : Uploader.World) e :
  status (post r (Uploader.server w)).1 = 200 →
  response_id (post r (Uploader.server w)).1 = Raise e →
  Uploader.upload_one l r w
  = (Raise e,
     Uploader.mkWorld (Uploader.err_log w) (post r (Uploader.server w)).2
       (Uploader.fs w)).
Proof.
  intros H200 Hid. unfold Uploader.upload_one, Uploader.session_post, bind.
  unfold response_id in Hid.
  destruct (post r (Uploader.server w)) as [resp srv']. simpl in *.
  rewrite decide_True by done. unfold lift.
  destruct (subscript (data resp) "data") as [d|e']; [|by injection Hid as ->].
  by rewrite Hid.
Qed.



End UploadMore.

(** X17: an answer of status 200 that carries no id aborts the upload
    at once, with the exception of the failed subscript: the records
    after it are not sent, no [ResourceUploadError] is raised for the
    records that failed before it, and the rollback-id file is not
    written, although the records that succeeded before it were
    created. *)
Theorem upload_aborts_on_answer_without_id
    {U : Utils} {Sys : System} {E : Endpoint}
    (before rest : list ResourceDto) (r : ResourceDto) (verbose : bool)
    (w : Uploader.World) (e : pyexn) :
  let xs := answers before (Uploader.server w) in
  let srv := server_after before (Uploader.server w) in
  Forall well_formed xs →
  status (post r srv).1 = 200 →
  response_id (post r srv).1 = Raise e →
  Uploader.upload (before ++ r :: rest) verbose w
  = (Raise e,
     Uploader.mkWorld (Uploader.err_log w ++ failure_msgs xs)
       (post r srv).2 (Uploader.fs w)).
Proof.
  intros xs srv Hwf H200 Hid. unfold Uploader.upload.
  apply bind_raise. rewrite for_fold_app.
  rewrite (bind_ok _ _ _ _ _ (upload_loop before _ w Hwf)).
  simpl. apply bind_raise.
  erewrite upload_one_malformed; [reflexivity|exact H200|exact Hid].
Qed.

(** Witness of X17's theorem: the second of three records is answered
    with status 200 and no id. *)
Lemma upload_aborts_on_answer_without_id_witness :
  Uploader.upload (U := Standin.utils) (Sys := Standin.notes_system)
    (E := Example.endpoint)
    [Standin.named "Acme"; Standin.named "Broken"; Standin.named "Beta"]
    false (Uploader.init (E := Example.endpoint) 7 Standin.empty_fs)
  = (Raise (PyExn KeyError "data"),
     Uploader.mkWorld (E := Example.endpoint) [] 8 Standin.empty_fs).
Proof.
  apply (upload_aborts_on_answer_without_id (U := Standin.utils)
           (Sys := Standin.notes_system) (E := Example.endpoint)
           [Standin.named "Acme"] [Standin.named "Beta"]
           (Standin.named "Broken") false
           (Uploader.init (E := Example.endpoint) 7 Standin.empty_fs)).
  - by_evaluation.
  - reflexivity.
  - reflexivity.
Defined.





(** ** Empty parts of a category value *)

Lemma split_app_sep (sep : ascii) (t u : string) :
  PyStr.split sep (t +:+ String sep u)
  = PyStr.split sep t ++ PyStr.split sep u.
Proof.
  induction t as [|c t IH].
  - simpl. by rewrite Ascii.eqb_refl.
  - rewrite app_cons. simpl. rewrite IH.
    destruct (Ascii.eqb c sep); [done|].
    pose proof (split_nonempty sep t) as Hne.
    by destruct (PyStr.split sep t).
Qed.

Lemma first_unknown sub (parts : list string) (st : CSVParser) :
  Exists (λ p, p ∉ vocabulary sub st) parts →
  ∃ pre t post,
    parts = pre ++ t :: post
    ∧ Forall (λ p, p ∈ vocabulary sub st) pre
    ∧ (t ∉ vocabulary sub st).
Proof.
  induction parts as [|p ps IH]; intros Hex; [by apply Exists_nil in Hex|].
  destruct (decide (p ∈ vocabulary sub st)) as [Hin|Hout].
  - apply Exists_cons in Hex as [Hp|Hex]; [done|].
    destruct (IH Hex) as (pre & t & post & -> & Hpre & Ht).
    exists (p :: pre), t, post. split; [done|]. split; [by constructor|done].
  - exists [], p, ps. split; [done|]. split; [constructor|done].
Qed.

(** X20: a category value with an empty part is never accepted, unless
    the empty string is in the vocabulary: the empty value, a value that
    starts or ends with [+], and a value with two [+] in a row are all
    rejected, with the exception that names a part that is not in the
    vocabulary. *)
Theorem validate_category_field_empty_part (s : string) (sub : bool)
    (st : CSVParser) :
  s = EmptyString ∨ (∃ t, s = "+" +:+ t) ∨ (∃ t, s = t +:+ "+")
  ∨ (∃ t u, s = t +:+ "++" +:+ u) →
  EmptyString ∉ vocabulary sub st →
  EmptyString ∈ PyStr.split "+" s
  ∧ ∃ t, t ∈ PyStr.split "+" s ∧ (t ∉ vocabulary sub st)
         ∧ _validate_category_field (PyStr s) sub st
           = (Raise (PyExn Exception (unknown_category_msg sub t)), st).
Proof.
  intros Hshape Hempty.
  assert (EmptyString ∈ PyStr.split "+" s) as Hin.
  { destruct Hshape as [->|[[t ->]|[[t ->]|(t & u & ->)]]].
    - by left.
    - change ("+" +:+ t) with (String "+"%char t). simpl. by left.
    - rewrite (split_app_sep "+" t EmptyString). apply elem_of_app.
      right. by left.
    - change (t +:+ "++" +:+ u) with (t +:+ String "+" ("+" +:+ u)).
      rewrite (split_app_sep "+" t).
      change ("+" +:+ u) with (String "+"%char u). simpl.
      apply elem_of_app. right. by left. }
  split; [exact Hin|].
  destruct (first_unknown sub (PyStr.split "+" s) st)
    as (pre & t & post & Hparts & Hpre & Ht).
  { apply Exists_exists. by exists EmptyString. }
  exists t. split; [|split; [done|]].
  - rewrite Hparts. apply elem_of_app. right. by left.
  - by apply (validate_category_field_unknown s sub st pre t post).
Qed.

(** Witness of X20's theorem: a value that ends with [+]. *)
Lemma validate_category_field_empty_part_witness :
  _validate_category_field (PyStr "Tutoring+") false Standin.two_categories
  = (Raise (PyExn Exception (unknown_category_msg false EmptyString)),
     Standin.two_categories).
Proof.
  destruct (validate_category_field_empty_part "Tutoring+" false
              Standin.two_categories) as (_ & t & Hin & Ht & Hrun).
  - right. right. left. by exists "Tutoring".
  - by_evaluation.
  - assert (t = EmptyString) as ->; [|exact Hrun].
    apply elem_of_cons in Hin as [->|Hin].
    + exfalso. apply Ht. by_evaluation.
    + apply elem_of_cons in Hin as [->|Hin]; [done|].
      by apply elem_of_nil in Hin.
Defined.

(** ** A run that finds no file *)

Lemma set_order_empty {Sys : System} : set_order ∅ = [].
Proof.
  pose proof (set_order_perm ∅) as Hperm. rewrite elements_empty in Hperm.
  by apply Permutation_nil_r in Hperm.
Qed.

Lemma process_args_run {U : Utils} {Sys : System} argv (st : CSVParser) :
  (2 ≤ length argv)%nat →
  missing_paths (drop 1 argv) = [] →
  _process_args argv st = (Ok tt, foldl after_arg st (drop 1 argv)).
Proof.
  intros Hlen Hmiss. unfold _process_args. rewrite decide_False by lia.
  unfold scan_args. rewrite (bind_ok _ _ _ _ _ (scan_args_eq _ 0 st)).
  by rewrite Hmiss.
Qed.

(** X21: a run whose arguments name no missing path and lead to no
    [.csv] file is not an error: from a session without files, [parse]
    fetches the vocabulary and returns 0, with no record collected and
    nothing logged. *)
Theorem parse_without_csv_files {U : Utils} {Sch : Schema} {Sys : System}
    (argv : list string) (st : CSVParser) cats subcats :
  (2 ≤ length argv)%nat →
  missing_paths (drop 1 argv) = [] →
  found_csvs (drop 1 argv) = [] →
  files st = ∅ →
  all_categories = Ok (cats, subcats) →
  ∃ st',
    parse argv st = (Ok 0, st')
    ∧ resources st' = resources st
    ∧ err_log st' = err_log st
    ∧ files st' = ∅
    ∧ categories st' = list_to_set cats
    ∧ subcategories st' = list_to_set subcats.
Proof.
  intros Hlen Hmiss Hfound Hfiles Hvoc.
  destruct (after_args_state (drop 1 argv) st) as (Hlog & Hin & Hres & _).
  assert (files (foldl after_arg st (drop 1 argv)) = ∅) as Hnone.
  { apply elem_of_equiv_empty_L. intros p Hp. apply Hin in Hp.
    rewrite Hfiles, Hfound in Hp. destruct Hp as [Hp|Hp].
    - by apply elem_of_empty in Hp.
    - by apply elem_of_nil in Hp. }
  eexists. split.
  - unfold parse.
    rewrite (bind_ok _ _ _ _ _ (process_args_run argv st Hlen Hmiss)).
    unfold bind at 1, lift at 1. rewrite Hvoc.
    unfold bind at 1, modify at 1. simpl.
    unfold bind at 1. unfold _parse_all at 1. unfold bind at 1, get at 1.
    simpl. rewrite Hnone, set_order_empty. simpl. reflexivity.
  - simpl. rewrite Hres, Hlog, Hmiss, Hnone. simpl.
    by rewrite app_nil_r.
Qed.

(** Witness of X21's theorem: a run with a flag and a text file. *)
Lemma parse_without_csv_files_witness :
  ∃ st',
    parse (U := Standin.utils) (Sch := Standin.schema)
      (Sys := Standin.notes_system) ["main.py"; "-v"; "notes.txt"]
      CSVParser_init
    = (Ok 0, st')
    ∧ resources st' = [] ∧ err_log st' = [].
Proof.
  destruct (parse_without_csv_files (U := Standin.utils)
              (Sch := Standin.schema) (Sys := Standin.notes_system)
              ["main.py"; "-v"; "notes.txt"] CSVParser_init
              ["Tutoring"] ["Math"])
    as (st' & Hrun & Hres & Hlog & _);
    [simpl; lia|reflexivity|reflexivity|reflexivity|reflexivity|].
  by exists st'.
Defined.
